(** * obsidian-md-merge: the file-selection and merge pipeline of [main.ts]

    A shallow embedding of the plugin class [MergeMarkdownPlugin]:
    [collectMarkdownFiles], [ensureFolderExists] and [mergeMarkdownFiles],
    together with the JavaScript string primitives they call.

    Strings are sequences of code units; the development works with code
    units below 256, so a [string] of the Standard Library is a JavaScript
    string whose code units all fit in one byte. *)

From Stdlib Require Import List Bool Arith ZArith Lia String Ascii.
From Stdlib Require Import Sorting.Sorted Sorting.Permutation DecimalString.
From Stdlib Require Import Structures.OrderedTypeEx.
From Equations Require Import Equations.
Import ListNotations.
Open Scope list_scope.
Open Scope string_scope.
Open Scope nat_scope.

(** ** JavaScript string primitives *)

Module JS.

(** A string is truthy when it is not empty. *)
Definition truthy (s : string) : bool :=
  match s with EmptyString => false | String _ _ => true end.

(** [WhiteSpace] and [LineTerminator] code units below 256:
    TAB, LF, VT, FF, CR, SP and NBSP. *)
Definition isWhiteSpace (c : ascii) : bool :=
  let n := nat_of_ascii c in
  ((9 <=? n) && (n <=? 13)) || (n =? 32) || (n =? 160).

(** The string without its longest run of [p] characters at the start. *)
Fixpoint dropStart (p : ascii -> bool) (s : string) : string :=
  match s with
  | EmptyString => EmptyString
  | String c s' => if p c then dropStart p s' else s
  end.

(** The string without its longest run of [p] characters at the end: a
    character is kept when something that is kept follows it or when it is
    not a [p] character. *)
Fixpoint dropEnd (p : ascii -> bool) (s : string) : string :=
  match s with
  | EmptyString => EmptyString
  | String c s' =>
      match dropEnd p s' with
      | EmptyString => if p c then EmptyString else String c EmptyString
      | t => String c t
      end
  end.

(** [String.prototype.trim] *)
Definition trim (s : string) : string := dropEnd isWhiteSpace (dropStart isWhiteSpace s).

(** [String.prototype.startsWith] *)
Definition startsWith (s p : string) : bool := String.prefix p s.

(** [String.prototype.endsWith]: the last [length p] code units of [s]
    are [p]. *)
Definition endsWith (s p : string) : bool :=
  (String.length p <=? String.length s)
  && String.eqb (substring (String.length s - String.length p) (String.length p) s) p.

(** Lower-casing of one code unit below 256: A-Z and the Latin-1 capitals
    (0xC0-0xDE without the multiplication sign 0xD7) move up by 32. *)
Definition lowerChar (c : ascii) : ascii :=
  let n := nat_of_ascii c in
  if ((65 <=? n) && (n <=? 90))
     || ((192 <=? n) && (n <=? 222) && negb (n =? 215))
  then ascii_of_nat (n + 32) else c.

(** [String.prototype.toLowerCase] *)
Fixpoint toLowerCase (s : string) : string :=
  match s with
  | EmptyString => EmptyString
  | String c s' => String (lowerChar c) (toLowerCase s')
  end.

Fixpoint drop (n : nat) (s : string) : string :=
  match n, s with
  | O, _ => s
  | S n', EmptyString => EmptyString
  | S n', String _ s' => drop n' s'
  end.

(** [s.replace(pat, rep)] with a string pattern: the first occurrence of
    [pat], scanning from the left, is replaced; without an occurrence the
    string is returned as it is.  ([rep] is taken literally: the callers'
    replacement text holds no [$].) *)
Fixpoint replace (pat rep s : string) : string :=
  if String.prefix pat s then rep ++ drop (String.length pat) s
  else match s with
       | EmptyString => EmptyString
       | String c s' => String c (replace pat rep s')
       end.

(** [s.split(sep)] for a separator of one code unit: the pieces between the
    occurrences of [sep], empty pieces included; never the empty list. *)
Fixpoint split (sep : ascii) (s : string) : list string :=
  match s with
  | EmptyString => [EmptyString]
  | String c s' =>
      if Ascii.eqb c sep then EmptyString :: split sep s'
      else match split sep s' with
           | [] => [String c EmptyString]
           | p :: ps => String c p :: ps
           end
  end.

Definition isSlash (c : ascii) : bool := Ascii.eqb c "/"%char.

(** [s.replace(/^\/+|\/+$/g, '')]: the run of slashes at the start and the
    run of slashes at the end are removed. *)
Definition stripSlashes (s : string) : string := dropEnd isSlash (dropStart isSlash s).

(** [Array.prototype.join] *)
Fixpoint join (sep : string) (l : list string) : string :=
  match l with
  | [] => EmptyString
  | [x] => x
  | x :: rest => x ++ sep ++ join sep rest
  end.

End JS.

(** ** The vault tree: [TFile], [TFolder] *)

Record TFile := mkTFile {
  path : string;
  name : string;
  basename : string;
  extension : string
}.

(** A [TFolder] holds its children, each a [TFile] ([inl]) or a [TFolder]
    ([inr]); [child instanceof TFolder] is the test for [inr]. *)
#[local] Unset Elimination Schemes.
Inductive TFolder := mkTFolder {
  folder_path : string;
  folder_name : string;
  children : list (TFile + TFolder)
}.
#[local] Set Elimination Schemes.

Definition TAbstractFile : Type := (TFile + TFolder)%type.

(** The number of folders of a tree, the root included: the measure under
    which the traversal's stack shrinks. *)
Fixpoint folder_count (d : TFolder) : nat :=
  S (list_sum (map (fun c : TAbstractFile =>
                      match c with inl _ => 0 | inr d' => folder_count d' end)
                   (children d))).

Definition stack_weight (stack : list TFolder) : nat :=
  list_sum (map folder_count stack).

(** The files of a tree in the order of its children lists: the [TFile]
    children of the folder and, when [deep] is set, of every folder below. *)
Fixpoint files_of (deep : bool) (d : TFolder) : list TFile :=
  flat_map (fun c : TAbstractFile =>
              match c with
              | inl f => [f]
              | inr d' => if deep then files_of deep d' else []
              end) (children d).

(** The [TFile] children and the [TFolder] children of a children list. *)
Definition child_files (cs : list TAbstractFile) : list TFile :=
  flat_map (fun c : TAbstractFile => match c with inl f => [f] | inr _ => [] end) cs.

Definition child_folders (cs : list TAbstractFile) : list TFolder :=
  flat_map (fun c : TAbstractFile => match c with inl _ => [] | inr d => [d] end) cs.

(** [inside d f]: the file [f] is a child of [d] or of a folder below [d]. *)
Inductive inside : TFolder -> TFile -> Prop :=
| inside_child d f : In (inl f) (children d) -> inside d f
| inside_sub d d' f : In (inr d') (children d) -> inside d' f -> inside d f.

(** [nested d f]: the file [f] lies inside a subfolder of [d]. *)
Definition nested (d : TFolder) (f : TFile) : Prop :=
  exists d', In (inr d') (children d) /\ inside d' f.

(** [below folder d]: the folder [d] is [folder] or a folder under it. *)
Inductive below : TFolder -> TFolder -> Prop :=
| below_self folder : below folder folder
| below_child folder d' d :
    In (inr d') (children folder) -> below d' d -> below folder d.

(** Paths are unique within a tree. *)
Definition unique_paths (d : TFolder) : Prop :=
  NoDup (map path (files_of true d)).

(** ** Settings *)

Record MergePluginSettings := mkSettings {
  folderName : string;
  outputFolder : string;
  outputFileName : string;
  includeHidden : bool;
  excludedFiles : string;
  recursive : bool;
  showRibbonIcon : bool
}.

Definition DEFAULT_SETTINGS : MergePluginSettings := {|
  folderName := "";
  outputFolder := "merged";
  outputFileName := "merged-output-{date}.md";
  includeHidden := false;
  excludedFiles := "";
  recursive := false;
  showRibbonIcon := true
|}.

(** ** [Array.prototype.sort] with a comparison function

    The sort of the language is stable; with a consistent comparison
    function its result is the one arrangement of the elements that is
    ascending and keeps elements that compare equal in their first order.
    Insertion from the right end, each element going before the first
    element it does not exceed, computes that arrangement. *)

Section Sort.

Context {A : Type}.
Variable comparefn : A -> A -> Z.

Fixpoint insert (x : A) (l : list A) : list A :=
  match l with
  | [] => [x]
  | y :: l' => if (comparefn x y <=? 0)%Z then x :: l else y :: insert x l'
  end.

Definition sort (l : list A) : list A := fold_right insert [] l.

(** [a] does not come after [b]. *)
Definition precedes (a b : A) : Prop := (comparefn a b <= 0)%Z.

(** [a] and [b] compare equal. *)
Definition equivalent (a b : A) : Prop := precedes a b /\ precedes b a.

(** A consistent comparison function: any two elements are ordered one way
    or the other, and the order is transitive. *)
Definition consistent : Prop :=
  (forall a b, precedes a b \/ precedes b a)
  /\ (forall a b c, precedes a b -> precedes b c -> precedes a c).

End Sort.

(** A sequence of files ascends under [cmp] applied to the [key] of the
    files: each file compares less than or equal to every file after it. *)
Definition ascending_by (key : TFile -> string) (cmp : string -> string -> Z)
    (files : list TFile) : Prop :=
  StronglySorted (fun a b => (cmp (key a) (key b) <= 0)%Z) files.

(** ** [collectMarkdownFiles] *)

Section Collect.

(** [minimatch(path, pattern)] of the minimatch package. *)
Variable minimatch : string -> string -> bool.

(** [a.localeCompare(b)]: negative, zero or positive. *)
Variable localeCompare : string -> string -> Z.

(** [this.settings] *)
Variable settings : MergePluginSettings.

(** The condition of the [else if] for a child that is a [TFile]. *)
Definition selected (outputPath : string) (excludedPatterns : list string)
    (child : TFile) : bool :=
  String.eqb (extension child) "md"
  && negb (String.eqb (path child) outputPath)
  && negb (existsb (fun pattern => minimatch (path child) pattern) excludedPatterns)
  && (includeHidden settings || negb (JS.startsWith (name child) ".")).

(** One turn of [for (const child of current.children)].  The stack has its
    top at the head of the list: [stack.push] is a cons and [stack.pop()]
    takes the head; [files.push] appends at the end. *)
Definition visit (outputPath : string) (excludedPatterns : list string)
    (acc : list TFolder * list TFile) (child : TAbstractFile)
    : list TFolder * list TFile :=
  let (stack, files) := acc in
  match child with
  | inr d => if recursive settings then (d :: stack, files) else (stack, files)
  | inl f => if selected outputPath excludedPatterns f
             then (stack, (files ++ [f])%list) else (stack, files)
  end.

Lemma visit_weight outputPath pats cs stack files :
  stack_weight (fst (fold_left (visit outputPath pats) cs (stack, files)))
  <= stack_weight stack
     + list_sum (map (fun c : TAbstractFile =>
                        match c with inl _ => 0 | inr d' => folder_count d' end) cs).
Proof.
  revert stack files.
  induction cs as [|c cs IH]; intros stack files; simpl.
  - lia.
  - destruct c as [f|d]; simpl.
    + destruct (selected outputPath pats f); specialize (IH stack); 
        [specialize (IH (files ++ [f])%list) | specialize (IH files)]; lia.
    + destruct (recursive settings).
      * specialize (IH (d :: stack) files). unfold stack_weight in *. simpl in *. lia.
      * specialize (IH stack files). lia.
Qed.

(** [while (stack.length) { const current = stack.pop()!; for (...) ... }] *)
Equations? collect_loop (outputPath : string) (excludedPatterns : list string)
    (stack : list TFolder) (files : list TFile) : list TFile
    by wf (stack_weight stack) lt :=
  collect_loop outputPath excludedPatterns [] files := files;
  collect_loop outputPath excludedPatterns (current :: rest) files :=
    collect_loop outputPath excludedPatterns
      (fst (fold_left (visit outputPath excludedPatterns) (children current) (rest, files)))
      (snd (fold_left (visit outputPath excludedPatterns) (children current) (rest, files))).
Proof.
  pose proof (visit_weight outputPath excludedPatterns (children current) rest files) as H.
  unfold stack_weight in *. simpl. destruct current as [p n cs]. simpl in *. lia.
Qed.

Definition collectMarkdownFiles (folder : TFolder) (outputPath : string)
    (excludedPatterns : list string) : list TFile :=
  let files := collect_loop outputPath excludedPatterns [folder] [] in
  sort (fun a b => localeCompare (name a) (name b)) files.

End Collect.

(** [visited d f]: the traversal from [d] meets the file [f]: it is a child
    of [d], or, in recursive mode, the traversal from a child folder of [d]
    meets it. *)
Inductive visited (settings : MergePluginSettings) : TFolder -> TFile -> Prop :=
| visited_child d f : In (inl f) (children d) -> visited settings d f
| visited_sub d d' f :
    recursive settings = true ->
    In (inr d') (children d) -> visited settings d' f -> visited settings d f.


(** ** The clock: [new Date().toISOString()] *)

(** A [Date] by its calendar fields in UTC, the fields [toISOString]
    prints. *)
Record Date := mkDate {
  year : Z;
  month : nat;
  day : nat;
  hours : nat;
  minutes : nat;
  seconds : nat;
  milliseconds : nat
}.

(** The fields of a date lie in their calendar ranges. *)
Definition valid_date (d : Date) : Prop :=
  1 <= month d <= 12 /\ 1 <= day d <= 31 /\ hours d < 24 /\ minutes d < 60
  /\ seconds d < 60 /\ milliseconds d < 1000.

Definition digit (n : nat) : ascii := ascii_of_nat (48 + n mod 10).

(** The last [k] decimal digits of [n], zero-padded. *)
Fixpoint digits (k n : nat) : string :=
  match k with
  | O => EmptyString
  | S k' => digits k' (n / 10) ++ String (digit n) EmptyString
  end.

(** Years 0 to 9999 print with four digits, the others with a sign and six
    digits. *)
Definition isoYear (y : Z) : string :=
  if ((0 <=? y) && (y <=? 9999))%Z then digits 4 (Z.to_nat y)
  else if (y <? 0)%Z then "-" ++ digits 6 (Z.to_nat (- y))
  else "+" ++ digits 6 (Z.to_nat y).

(** [Date.prototype.toISOString]: [YYYY-MM-DDTHH:mm:ss.sssZ] *)
Definition toISOString (d : Date) : string :=
  isoYear (year d) ++ "-" ++ digits 2 (month d) ++ "-" ++ digits 2 (day d)
  ++ "T" ++ digits 2 (hours d) ++ ":" ++ digits 2 (minutes d) ++ ":"
  ++ digits 2 (seconds d) ++ "." ++ digits 3 (milliseconds d) ++ "Z".

(** [String(n)] for an array length. *)
Definition numberToString (n : nat) : string :=
  NilEmpty.string_of_uint (Nat.to_uint n).

Definition newline : string := String (ascii_of_nat 10) EmptyString.
Definition dquote : string := String (ascii_of_nat 34) EmptyString.

(** ** The destination path (lines 79-90 of [mergeMarkdownFiles]) *)

(** [const today = new Date().toISOString().split('T')[0]] *)
Definition today (now : Date) : string :=
  hd EmptyString (JS.split "T"%char (toISOString now)).

(** [outputFileName] after the substitution of the date and the completion
    of the extension. *)
Definition resolvedFileName (settings : MergePluginSettings) (now : Date) : string :=
  let outputFileName := JS.trim (outputFileName settings) in
  let outputFileName := JS.replace "{date}" (today now) outputFileName in
  if negb (JS.endsWith (JS.toLowerCase outputFileName) ".md")
  then outputFileName ++ ".md" else outputFileName.

(** [folderPath] *)
Definition resolvedFolderPath (settings : MergePluginSettings) : string :=
  let outputFolder := JS.trim (outputFolder settings) in
  JS.stripSlashes outputFolder.

(** [outputPath] *)
Definition resolvedOutputPath (settings : MergePluginSettings) (now : Date) : string :=
  let outputFileName := resolvedFileName settings now in
  let folderPath := resolvedFolderPath settings in
  if JS.truthy folderPath then folderPath ++ "/" ++ outputFileName else outputFileName.

(** [this.settings.excludedFiles.split(',').map(s => s.trim()).filter(Boolean)] *)
Definition parseExcludedPatterns (settings : MergePluginSettings) : list string :=
  filter JS.truthy (map JS.trim (JS.split ","%char (excludedFiles settings))).

Definition isComma (c : ascii) : bool := Ascii.eqb c ","%char.



(** ** The destination path, in the words of its description *)

Fixpoint all (p : ascii -> bool) (s : string) : bool :=
  match s with
  | EmptyString => true
  | String c s' => p c && all p s'
  end.

Definition first (s : string) : option ascii :=
  match s with EmptyString => None | String c _ => Some c end.

Fixpoint last (s : string) : option ascii :=
  match s with
  | EmptyString => None
  | String c EmptyString => Some c
  | String _ s' => last s'
  end.

(** [t] is [s] with the [p] characters at its two ends stripped: [s] is [t]
    between two runs of [p] characters, and [t] neither starts nor ends
    with a [p] character. *)
Definition stripped (p : ascii -> bool) (s t : string) : Prop :=
  (exists l r, s = l ++ t ++ r /\ all p l = true /\ all p r = true)
  /\ (forall c, first t = Some c -> p c = false)
  /\ (forall c, last t = Some c -> p c = false).

(** [r] is [s] with [rep] in the place of [pat]: of its leftmost
    occurrence when there is one. *)
Definition substituted (pat rep s r : string) : Prop :=
  (exists pre post,
      s = pre ++ pat ++ post
      /\ (forall pre' post', s = pre' ++ pat ++ post' ->
            String.length pre <= String.length pre')
      /\ r = pre ++ rep ++ post)
  \/ ((forall pre post, s <> pre ++ pat ++ post) /\ r = s).

(** [s] ends with [.md] in some mix of cases. *)
Definition ends_with_md (s : string) : Prop :=
  exists stem m d,
    s = stem ++ String "."%char (String m (String d EmptyString))
    /\ (m = "m"%char \/ m = "M"%char) /\ (d = "d"%char \/ d = "D"%char).

(** The number a string of decimal digits writes, from the value [acc] of
    the digits before it. *)
Fixpoint decimal_value (s : string) (acc : nat) : option nat :=
  match s with
  | EmptyString => Some acc
  | String c s' =>
      let n := nat_of_ascii c in
      if (48 <=? n) && (n <=? 57) then decimal_value s' (10 * acc + (n - 48))
      else None
  end.

(** [s] writes the day of [now] as [YYYY-MM-DD]. *)
Definition date_form (now : Date) (s : string) : Prop :=
  exists yyyy mm dd,
    s = yyyy ++ "-" ++ mm ++ "-" ++ dd
    /\ String.length yyyy = 4 /\ String.length mm = 2 /\ String.length dd = 2
    /\ decimal_value yyyy 0 = Some (Z.to_nat (year now))
    /\ decimal_value mm 0 = Some (month now)
    /\ decimal_value dd 0 = Some (day now).

(** The destination path as its description, amended, builds it: the
    trimmed file name template with the date in the place of the leftmost
    [{date}], completed with [.md] unless it ends with one in some mix of
    cases; the output folder, first trimmed of white space, without the
    slashes at its ends; the two joined with one slash, or the file name
    alone when the folder is empty. *)
Definition resolveDestination_amended (settings : MergePluginSettings) (now : Date)
    (result : string) : Prop :=
  exists template date substitutedName fileName folder0 folder,
    stripped JS.isWhiteSpace (outputFileName settings) template
    /\ date_form now date
    /\ substituted "{date}" date template substitutedName
    /\ ((ends_with_md substitutedName /\ fileName = substitutedName)
        \/ (~ ends_with_md substitutedName /\ fileName = substitutedName ++ ".md"))
    /\ stripped JS.isWhiteSpace (outputFolder settings) folder0
    /\ stripped JS.isSlash folder0 folder
    /\ ((folder = "" /\ result = fileName)
        \/ (folder <> "" /\ result = folder ++ "/" ++ fileName)).

(** The description as it was first worded, without the amendments:
    [{date}] gives way to the date wherever it stands in the trimmed
    template, and the slashes are stripped from the output folder as the
    setting has it. *)
Fixpoint substituteAll_from (fuel : nat) (pat rep s : string) : string :=
  match fuel with
  | O => s
  | S fuel' =>
      if JS.truthy pat && String.prefix pat s
      then rep ++ substituteAll_from fuel' pat rep (JS.drop (String.length pat) s)
      else match s with
           | EmptyString => EmptyString
           | String c s' => String c (substituteAll_from fuel' pat rep s')
           end
  end.

(** [s] with [rep] in the place of every occurrence of [pat], from the
    left. *)
Definition substituteAll (pat rep s : string) : string :=
  substituteAll_from (S (String.length s)) pat rep s.

Definition resolveDestination_stated (settings : MergePluginSettings) (now : Date)
    : string :=
  let name := substituteAll "{date}" (today now) (JS.trim (outputFileName settings)) in
  let name := if JS.endsWith (JS.toLowerCase name) ".md" then name else name ++ ".md" in
  let folder := JS.stripSlashes (outputFolder settings) in
  if JS.truthy folder then folder ++ "/" ++ name else name.

(** ** The host: the vault of the application *)

(** The vault calls the plugin makes.  A [Vault] is a state of the host's
    file tree.  A [FolderObj] is a [TFolder] object the host hands out; the
    object is live, and [subtree v folder] is the tree read from its
    [children], and theirs, when the vault is in state [v].  A call that
    rejects answers [None] and leaves the vault as it was. *)
Class VaultHost := {
  Vault : Type;
  FolderObj : Type;
  getRoot : Vault -> FolderObj;
  getFolderByPath : Vault -> string -> option FolderObj;
  getFileByPath : Vault -> string -> option TFile;
  subtree : Vault -> FolderObj -> TFolder;
  read : Vault -> TFile -> option string;
  modify : Vault -> TFile -> string -> option Vault;
  create : Vault -> string -> string -> option Vault;
  createFolder : Vault -> string -> option Vault
}.

(** What a run does to its surroundings, in the order it does it. *)
Inductive Event :=
| Notice (message : string)
| ConsoleError
| CreateFolder (path : string)
| Read (file : TFile)
| Modify (file : TFile) (data : string)
| Create (path : string) (data : string).

Definition isCreateFolder (e : Event) : bool :=
  match e with CreateFolder _ => true | _ => false end.

(** A call that creates a file or changes the content of one. *)
Definition isFileWrite (e : Event) : bool :=
  match e with Modify _ _ | Create _ _ => true | _ => false end.

(** How an [async] function ends: it returns or its promise rejects. *)
Inductive Outcome (A : Type) :=
| Returned (a : A)
| Thrown.
Arguments Returned {A} a.
Arguments Thrown {A}.

Section Plugin.

Context {host : VaultHost}.

(** A computation over the vault: the outcome, the vault it leaves and the
    events it emitted. *)
Definition M (A : Type) : Type := Vault -> Outcome A * Vault * list Event.

Definition ret {A} (a : A) : M A := fun v => (Returned a, v, []).

Definition bind {A B} (m : M A) (k : A -> M B) : M B :=
  fun v =>
    match m v with
    | (Returned a, v', l) =>
        match k a v' with (r, v'', l') => (r, v'', (l ++ l')%list) end
    | (Thrown, v', l) => (Thrown, v', l)
    end.

(** [try { m } catch (e) { handler }] *)
Definition tryCatch {A} (m : M A) (handler : M A) : M A :=
  fun v =>
    match m v with
    | (Returned a, v', l) => (Returned a, v', l)
    | (Thrown, v', l) =>
        match handler v' with (r, v'', l') => (r, v'', (l ++ l')%list) end
    end.

Definition emit (e : Event) : M unit := fun v => (Returned tt, v, [e]).

(** A query of the vault. *)
Definition ask {A} (q : Vault -> A) : M A := fun v => (Returned (q v), v, []).

(** A call that changes the vault or rejects. *)
Definition call (e : Event) (op : Vault -> option Vault) : M unit :=
  fun v =>
    match op v with
    | Some v' => (Returned tt, v', [e])
    | None => (Thrown, v, [e])
    end.

End Plugin.

Declare Scope vault_scope.
Delimit Scope vault_scope with vault.
Notation "x <- m ;; k" := (bind m (fun x => k))
  (at level 61, m at next level, right associativity) : vault_scope.
Notation "m ;; k" := (bind m (fun _ => k))
  (at level 61, right associativity) : vault_scope.
Open Scope vault_scope.

Section PluginMethods.

Context {host : VaultHost}.
Variable minimatch : string -> string -> bool.
Variable localeCompare : string -> string -> Z.
Variable settings : MergePluginSettings.

(** [for (const part of parts)] of [ensureFolderExists]. *)
Fixpoint ensureFolderExists_loop (parts : list string) (currentPath : string) : M unit :=
  match parts with
  | [] => ret tt
  | part :: rest =>
      let currentPath :=
        if JS.truthy currentPath then currentPath ++ "/" ++ part else part in
      exists_ <- ask (fun v => getFolderByPath v currentPath) ;;
      match exists_ with
      | Some _ => ret tt
      | None => call (CreateFolder currentPath) (fun v => createFolder v currentPath)
      end ;;
      ensureFolderExists_loop rest currentPath
  end.

Definition ensureFolderExists (path : string) : M unit :=
  if negb (JS.truthy path) then ret tt
  else ensureFolderExists_loop (JS.split "/"%char path) "".

(** [for (const file of files)] of [mergeMarkdownFiles]. *)
Fixpoint read_loop (files : list TFile) (mergedContent : string) : M string :=
  match files with
  | [] => ret mergedContent
  | file :: rest =>
      content <- (fun v => match read v file with
                           | Some c => (Returned c, v, [Read file])
                           | None => (Thrown, v, [Read file])
                           end) ;;
      let header := basename file in
      read_loop rest
        (mergedContent ++ "# " ++ header ++ newline ++ newline
           ++ JS.trim content ++ newline ++ newline)
  end.

(** Lines 100-131 of [mergeMarkdownFiles]: what the method does once the
    output folder is there.  [folder] is a live object: its children are
    read from the vault as it is when the collection runs. *)
Definition collectAndWrite (folder : FolderObj) (outputPath : string) : M unit :=
  let excludedPatterns := parseExcludedPatterns settings in
  files <- ask (fun v => collectMarkdownFiles minimatch localeCompare settings
                           (subtree v folder) outputPath excludedPatterns) ;;
  if List.length files =? 0 then emit (Notice "No markdown files found to merge.")
  else
    mergedContent <- read_loop files "" ;;
    tryCatch
      (existingFile <- ask (fun v => getFileByPath v outputPath) ;;
       match existingFile with
       | Some f => call (Modify f mergedContent) (fun v => modify v f mergedContent)
       | None => call (Create outputPath mergedContent)
                   (fun v => create v outputPath mergedContent)
       end ;;
       emit (Notice ("Merged " ++ numberToString (List.length files)
                       ++ " files into " ++ outputPath)))
      (emit ConsoleError ;; emit (Notice "Failed to write merged file.")).

(** The source folder of lines 66-77: the root for a blank [folderName],
    the folder of that path otherwise, [None] when there is none. *)
Definition sourceFolder (v : Vault) : option FolderObj :=
  if negb (JS.truthy (JS.trim (folderName settings)))
  then Some (getRoot v)
  else getFolderByPath v (folderName settings).

Definition mergeMarkdownFiles (now : Date) : M unit :=
  found <- ask sourceFolder ;;
  match found with
  | None =>
      emit (Notice ("Folder " ++ dquote ++ folderName settings ++ dquote
                      ++ " not found or is not a folder."))
  | Some folder =>
      let folderPath := resolvedFolderPath settings in
      let outputPath := resolvedOutputPath settings now in
      ensured <- tryCatch (ensureFolderExists folderPath ;; ret true)
                   (emit ConsoleError ;;
                    emit (Notice ("Failed to create output folder: " ++ folderPath)) ;;
                    ret false) ;;
      if negb ensured then ret tt else collectAndWrite folder outputPath
  end.

End PluginMethods.

(** ** The folder chain, in the words of its description *)

(** The prefixes of a list that are not empty, shortest first. *)
Fixpoint inits {A : Type} (l : list A) : list (list A) :=
  match l with
  | [] => []
  | x :: l' => [x] :: map (cons x) (inits l')
  end.

(** The prefix paths of a folder path: its segments between slashes, the
    first one, the first two, and so on, joined again with slashes. *)
Definition prefix_paths (path : string) : list string :=
  map (JS.join "/") (inits (JS.split "/"%char path)).

(** [created] is [paths] without some of its elements. *)
Inductive subsequence {A : Type} : list A -> list A -> Prop :=
| subsequence_nil : subsequence [] []
| subsequence_skip x created paths :
    subsequence created paths -> subsequence created (x :: paths)
| subsequence_keep x created paths :
    subsequence created paths -> subsequence (x :: created) (x :: paths).

Section FolderChain.

Context {host : VaultHost}.

(** Each path of the list in turn is created if no folder has it. *)
Fixpoint ensurePrefixes (paths : list string) : M unit :=
  match paths with
  | [] => ret tt
  | p :: rest =>
      present <- ask (fun v => getFolderByPath v p) ;;
      match present with
      | Some _ => ret tt
      | None => call (CreateFolder p) (fun v => createFolder v p)
      end ;;
      ensurePrefixes rest
  end.

(** Every event a computation emits satisfies [P]. *)
Definition emits {A : Type} (P : Event -> bool) (m : M A) : Prop :=
  forall v, Forall (fun e => P e = true) (snd (m v)).

End FolderChain.

(** What the plugin relies on from [createFolder]: a call that returns has
    made the folder, has removed no folder, and has left the files and
    their contents alone. *)
Class VaultLaws (host : VaultHost) : Prop := {
  createFolder_found : forall v p v',
    createFolder v p = Some v' -> getFolderByPath v' p <> None;
  createFolder_keeps_folders : forall v p v' q,
    createFolder v p = Some v' ->
    getFolderByPath v q <> None -> getFolderByPath v' q <> None;
  createFolder_keeps_files : forall v p v',
    createFolder v p = Some v' ->
    (forall q, getFileByPath v' q = getFileByPath v q)
    /\ (forall f, read v' f = read v f)
}.

(** ** The sections of the merged file (lines 112-118) *)

(** What one turn of the loop adds to [mergedContent]: the heading with the
    base name, a blank line, the trimmed content and a blank line. *)
Definition sectionOf (header content : string) : string :=
  "# " ++ header ++ newline ++ newline ++ JS.trim content ++ newline ++ newline.

Definition isNotice (e : Event) : bool :=
  match e with Notice _ => true | _ => false end.

Definition isRead (e : Event) : bool :=
  match e with Read _ => true | _ => false end.

(** ** The settings tab *)

(** The [onChange] callbacks of [MergeSettingTab.display]: what each one
    leaves in [this.plugin.settings] (and then saves). *)
Definition onChangeFolderName (value : string) (s : MergePluginSettings)
    : MergePluginSettings :=
  {| folderName := JS.trim value; outputFolder := outputFolder s;
     outputFileName := outputFileName s; includeHidden := includeHidden s;
     excludedFiles := excludedFiles s; recursive := recursive s;
     showRibbonIcon := showRibbonIcon s |}.

Definition onChangeOutputFolder (value : string) (s : MergePluginSettings)
    : MergePluginSettings :=
  {| folderName := folderName s; outputFolder := JS.trim value;
     outputFileName := outputFileName s; includeHidden := includeHidden s;
     excludedFiles := excludedFiles s; recursive := recursive s;
     showRibbonIcon := showRibbonIcon s |}.

Definition onChangeOutputFileName (value : string) (s : MergePluginSettings)
    : MergePluginSettings :=
  {| folderName := folderName s; outputFolder := outputFolder s;
     outputFileName := JS.trim value; includeHidden := includeHidden s;
     excludedFiles := excludedFiles s; recursive := recursive s;
     showRibbonIcon := showRibbonIcon s |}.

Definition onChangeIncludeHidden (value : bool) (s : MergePluginSettings)
    : MergePluginSettings :=
  {| folderName := folderName s; outputFolder := outputFolder s;
     outputFileName := outputFileName s; includeHidden := value;
     excludedFiles := excludedFiles s; recursive := recursive s;
     showRibbonIcon := showRibbonIcon s |}.

Definition onChangeRecursive (value : bool) (s : MergePluginSettings)
    : MergePluginSettings :=
  {| folderName := folderName s; outputFolder := outputFolder s;
     outputFileName := outputFileName s; includeHidden := includeHidden s;
     excludedFiles := excludedFiles s; recursive := value;
     showRibbonIcon := showRibbonIcon s |}.

Definition onChangeExcludedFiles (value : string) (s : MergePluginSettings)
    : MergePluginSettings :=
  {| folderName := folderName s; outputFolder := outputFolder s;
     outputFileName := outputFileName s; includeHidden := includeHidden s;
     excludedFiles := value; recursive := recursive s;
     showRibbonIcon := showRibbonIcon s |}.

(** ** The runs of [mergeMarkdownFiles], by kind *)

Section Runs.

Context {host : VaultHost}.
Variable minimatch : string -> string -> bool.
Variable localeCompare : string -> string -> Z.
Variable settings : MergePluginSettings.

(** The content [read] gives for a file in a vault (empty when the read
    rejects). *)
Definition contentAt (v : Vault) (f : TFile) : string :=
  match read v f with Some c => c | None => "" end.

(** The merged text of a sequence of files: their sections one after the
    other. *)
Definition mergedContentOf (v : Vault) (files : list TFile) : string :=
  fold_right append "" (map (fun f => sectionOf (basename f) (contentAt v f)) files).

Definition notFoundNotice : Event :=
  Notice ("Folder " ++ dquote ++ folderName settings ++ dquote
            ++ " not found or is not a folder.").

Definition folderFailedNotice : Event :=
  Notice ("Failed to create output folder: " ++ resolvedFolderPath settings).

Definition nothingNotice : Event := Notice "No markdown files found to merge.".

Definition mergedNotice (now : Date) (files : list TFile) : Event :=
  Notice ("Merged " ++ numberToString (List.length files) ++ " files into "
            ++ resolvedOutputPath settings now).

Definition writeFailedNotice : Event := Notice "Failed to write merged file.".

(** The files the collection returns in vault [v] for the source folder
    [folder]. *)
Definition collected (now : Date) (v : Vault) (folder : FolderObj) : list TFile :=
  collectMarkdownFiles minimatch localeCompare settings (subtree v folder)
    (resolvedOutputPath settings now) (parseExcludedPatterns settings).

(** The eight kinds of run: how a run from vault [v] can end, with the
    vault it leaves and what it did. *)
Inductive MergeRun (now : Date) (v : Vault)
    : Outcome unit * Vault * list Event -> Prop :=
| run_source_missing :
    sourceFolder settings v = None ->
    MergeRun now v (Returned tt, v, [notFoundNotice])
| run_folder_failed folder v1 log1 :
    sourceFolder settings v = Some folder ->
    ensureFolderExists (resolvedFolderPath settings) v = (Thrown, v1, log1) ->
    MergeRun now v (Returned tt, v1, (log1 ++ [ConsoleError; folderFailedNotice])%list)
| run_nothing folder v1 log1 :
    sourceFolder settings v = Some folder ->
    ensureFolderExists (resolvedFolderPath settings) v = (Returned tt, v1, log1) ->
    collected now v1 folder = [] ->
    MergeRun now v (Returned tt, v1, (log1 ++ [nothingNotice])%list)
| run_read_failed folder v1 log1 before f after :
    sourceFolder settings v = Some folder ->
    ensureFolderExists (resolvedFolderPath settings) v = (Returned tt, v1, log1) ->
    collected now v1 folder = (before ++ f :: after)%list ->
    Forall (fun g => read v1 g <> None) before ->
    read v1 f = None ->
    MergeRun now v (Thrown, v1, (log1 ++ map Read (before ++ [f]))%list)
| run_modified folder v1 log1 existing v2 :
    sourceFolder settings v = Some folder ->
    ensureFolderExists (resolvedFolderPath settings) v = (Returned tt, v1, log1) ->
    collected now v1 folder <> [] ->
    Forall (fun g => read v1 g <> None) (collected now v1 folder) ->
    getFileByPath v1 (resolvedOutputPath settings now) = Some existing ->
    modify v1 existing (mergedContentOf v1 (collected now v1 folder)) = Some v2 ->
    MergeRun now v
      (Returned tt, v2,
       (log1 ++ map Read (collected now v1 folder)
          ++ [Modify existing (mergedContentOf v1 (collected now v1 folder));
              mergedNotice now (collected now v1 folder)])%list)
| run_modify_failed folder v1 log1 existing :
    sourceFolder settings v = Some folder ->
    ensureFolderExists (resolvedFolderPath settings) v = (Returned tt, v1, log1) ->
    collected now v1 folder <> [] ->
    Forall (fun g => read v1 g <> None) (collected now v1 folder) ->
    getFileByPath v1 (resolvedOutputPath settings now) = Some existing ->
    modify v1 existing (mergedContentOf v1 (collected now v1 folder)) = None ->
    MergeRun now v
      (Returned tt, v1,
       (log1 ++ map Read (collected now v1 folder)
          ++ [Modify existing (mergedContentOf v1 (collected now v1 folder));
              ConsoleError; writeFailedNotice])%list)
| run_created folder v1 log1 v2 :
    sourceFolder settings v = Some folder ->
    ensureFolderExists (resolvedFolderPath settings) v = (Returned tt, v1, log1) ->
    collected now v1 folder <> [] ->
    Forall (fun g => read v1 g <> None) (collected now v1 folder) ->
    getFileByPath v1 (resolvedOutputPath settings now) = None ->
    create v1 (resolvedOutputPath settings now)
      (mergedContentOf v1 (collected now v1 folder)) = Some v2 ->
    MergeRun now v
      (Returned tt, v2,
       (log1 ++ map Read (collected now v1 folder)
          ++ [Create (resolvedOutputPath settings now)
                (mergedContentOf v1 (collected now v1 folder));
              mergedNotice now (collected now v1 folder)])%list)
| run_create_failed folder v1 log1 :
    sourceFolder settings v = Some folder ->
    ensureFolderExists (resolvedFolderPath settings) v = (Returned tt, v1, log1) ->
    collected now v1 folder <> [] ->
    Forall (fun g => read v1 g <> None) (collected now v1 folder) ->
    getFileByPath v1 (resolvedOutputPath settings now) = None ->
    create v1 (resolvedOutputPath settings now)
      (mergedContentOf v1 (collected now v1 folder)) = None ->
    MergeRun now v
      (Returned tt, v1,
       (log1 ++ map Read (collected now v1 folder)
          ++ [Create (resolvedOutputPath settings now)
                (mergedContentOf v1 (collected now v1 folder));
              ConsoleError; writeFailedNotice])%list).

End Runs.

(** ** A vault in memory

    A host to run the methods on: the folders are a table of paths, the
    contents a table from path to text, as in the host's map from path to
    file; the tree of files is the one the vault was built with (a folder a
    merge creates is empty). *)

Record MemVault := mkMemVault {
  mv_root : TFolder;
  mv_folders : list string;
  mv_data : list (string * string)
}.

Fixpoint lookup (p : string) (table : list (string * string)) : option string :=
  match table with
  | [] => None
  | (q, data) :: rest => if String.eqb p q then Some data else lookup p rest
  end.

Fixpoint update (p data : string) (table : list (string * string))
    : list (string * string) :=
  match table with
  | [] => [(p, data)]
  | (q, old) :: rest =>
      if String.eqb p q then (q, data) :: rest else (q, old) :: update p data rest
  end.

Fixpoint find_folder (p : string) (d : TFolder) : option TFolder :=
  if String.eqb (folder_path d) p then Some d
  else (fix go (cs : list TAbstractFile) : option TFolder :=
          match cs with
          | [] => None
          | inl _ :: cs' => go cs'
          | inr d' :: cs' =>
              match find_folder p d' with
              | Some r => Some r
              | None => go cs'
              end
          end) (children d).

Definition mem_file (v : MemVault) (p : string) : TFile :=
  match find (fun f => String.eqb (path f) p) (files_of true (mv_root v)) with
  | Some f => f
  | None => mkTFile p p p "md"
  end.

Definition memHost : VaultHost := {|
  Vault := MemVault;
  FolderObj := option string;
  getRoot := fun _ => None;
  getFolderByPath := fun v p =>
    if existsb (String.eqb p) (mv_folders v) then Some (Some p) else None;
  getFileByPath := fun v p =>
    match lookup p (mv_data v) with
    | Some _ => Some (mem_file v p)
    | None => None
    end;
  subtree := fun v folder =>
    match folder with
    | None => mv_root v
    | Some p => match find_folder p (mv_root v) with
                | Some d => d
                | None => mkTFolder p p []
                end
    end;
  read := fun v f => lookup (path f) (mv_data v);
  modify := fun v f data =>
    Some (mkMemVault (mv_root v) (mv_folders v) (update (path f) data (mv_data v)));
  create := fun v p data =>
    match lookup p (mv_data v) with
    | Some _ => None
    | None => Some (mkMemVault (mv_root v) (mv_folders v) (update p data (mv_data v)))
    end;
  createFolder := fun v p =>
    if existsb (String.eqb p) (mv_folders v) then None
    else Some (mkMemVault (mv_root v) (p :: mv_folders v) (mv_data v))
|}.

(** Comparison of code units, position by position: a stand-in for a
    collation where one is needed to run the code. *)
Definition codeUnitCompare (a b : string) : Z :=
  match String.compare a b with Lt => (-1)%Z | Eq => 0%Z | Gt => 1%Z end.

(** The file [dir/base.md] as the host describes it. *)
Definition mdFile (dir base : string) : TFile :=
  {| path := dir ++ base ++ ".md"; name := base ++ ".md";
     basename := base; extension := "md" |}.

Definition noMatch : string -> string -> bool := fun _ _ => false.

(** ** Vaults to run the code on *)

(** A folder with the notes [a.md] and [a b.md]. *)
Definition twoNotes : TFolder :=
  mkTFolder "/" "" [inl (mdFile "" "a"); inl (mdFile "" "a b")].

(** A vault with notes at the top, a folder [sub], a folder [.trash] whose
    name starts with a dot, a file whose name starts with a dot and a file
    that is not a note. *)
Definition sampleTree : TFolder :=
  mkTFolder "/" ""
    [ inl (mdFile "" "B");
      inr (mkTFolder "sub" "sub"
             [ inl (mdFile "sub/" "c");
               inr (mkTFolder "sub/deep" "deep" [inl (mdFile "sub/deep/" "d")]) ]);
      inl (mdFile "" "a");
      inr (mkTFolder ".trash" ".trash" [inl (mdFile ".trash/" "old")]);
      inl (mdFile "" ".hidden");
      inl (mkTFile "notes.txt" "notes.txt" "notes" "txt");
      inl (mdFile "" "out") ].

Definition recursiveSettings : MergePluginSettings := {|
  folderName := "";
  outputFolder := "a/b";
  outputFileName := "out-{date}.md";
  includeHidden := false;
  excludedFiles := "sub/*.md";
  recursive := true;
  showRibbonIcon := true
|}.

Definition hiddenSettings : MergePluginSettings := {|
  folderName := "";
  outputFolder := "";
  outputFileName := "out";
  includeHidden := true;
  excludedFiles := "";
  recursive := false;
  showRibbonIcon := true
|}.

(** A matcher that knows the one pattern [sub/*.md]: the paths directly
    under [sub]. *)
Definition subMatch (path pattern : string) : bool :=
  String.eqb pattern "sub/*.md" && String.eqb path "sub/c.md".

Definition newYear2024 : Date := mkDate 2024 1 1 9 30 0 0.

(** A vault with the notes [a.md] and [b.md] and no folder yet. *)
Definition scenarioNotes : MemVault :=
  mkMemVault (mkTFolder "/" "" [inl (mdFile "" "b"); inl (mdFile "" "a")])
             [] [("b.md", "hello"); ("a.md", " world ")].

(** Scenario C: a vault without a note and without a folder. *)
Definition scenarioC : MemVault :=
  mkMemVault (mkTFolder "/" "" [inl (mkTFile "notes.txt" "notes.txt" "notes" "txt")])
             [] [("notes.txt", "to do")].

(** A vault whose only note is the merged file of an earlier run, in the
    folder [a/b]. *)
Definition scenarioEarlier : MemVault :=
  mkMemVault
    (mkTFolder "/" ""
       [ inr (mkTFolder "a" "a"
                [ inr (mkTFolder "a/b" "b" [inl (mdFile "a/b/" "out-2024-01-01")]) ]) ])
    ["a"; "a/b"] [("a/b/out-2024-01-01.md", "earlier")].

(** An output folder with blanks around its slashes, and a template with
    the placeholder twice. *)
Definition paddedFolderSettings : MergePluginSettings := {|
  folderName := "";
  outputFolder := " /a/ ";
  outputFileName := "n";
  includeHidden := false;
  excludedFiles := "";
  recursive := false;
  showRibbonIcon := true
|}.

Definition twoDatesSettings : MergePluginSettings := {|
  folderName := "";
  outputFolder := "";
  outputFileName := "{date}-{date}";
  includeHidden := false;
  excludedFiles := "";
  recursive := false;
  showRibbonIcon := true
|}.

(** A vault that takes no change: [createFolder], [create] and [modify]
    reject; the rest is the vault in memory. *)
Definition lockedHost : VaultHost := {|
  Vault := MemVault;
  FolderObj := option string;
  getRoot := getRoot (VaultHost := memHost);
  getFolderByPath := getFolderByPath (VaultHost := memHost);
  getFileByPath := getFileByPath (VaultHost := memHost);
  subtree := subtree (VaultHost := memHost);
  read := read (VaultHost := memHost);
  modify := fun _ _ _ => None;
  create := fun _ _ _ => None;
  createFolder := fun _ _ => None
|}.

(** A vault whose note [a.md] cannot be read. *)
Definition scenarioUnreadable : MemVault :=
  mkMemVault (mkTFolder "/" "" [inl (mdFile "" "b"); inl (mdFile "" "a")])
             ["merged"] [("b.md", "hello")].

(** A vault with the note [a.md] and the merged file of an earlier run at
    the destination. *)
Definition scenarioOverwrite : MemVault :=
  mkMemVault
    (mkTFolder "/" ""
       [ inl (mdFile "" "a");
         inr (mkTFolder "merged" "merged"
                [inl (mdFile "merged/" "merged-output-2024-01-01")]) ])
    ["merged"]
    [("a.md", "new"); ("merged/merged-output-2024-01-01.md", "old")].

(** * Properties *)

(** ** The sort *)

Section SortFacts.

Context {A : Type}.
Variable comparefn : A -> A -> Z.

Lemma insert_perm x l : Permutation (insert comparefn x l) (x :: l).
Proof.
  induction l as [|y l IH]; simpl.
  - apply Permutation_refl.
  - destruct (comparefn x y <=? 0)%Z.
    + apply Permutation_refl.
    + apply Permutation_trans with (y :: x :: l).
      * apply perm_skip, IH.
      * apply perm_swap.
Qed.

Lemma sort_perm l : Permutation (sort comparefn l) l.
Proof.
  induction l as [|x l IH]; simpl.
  - apply perm_nil.
  - apply Permutation_trans with (x :: sort comparefn l).
    + apply insert_perm.
    + apply perm_skip, IH.
Qed.

Lemma sort_In x l : In x (sort comparefn l) <-> In x l.
Proof.
  split; apply Permutation_in.
  - apply sort_perm.
  - apply Permutation_sym, sort_perm.
Qed.

Lemma insert_sorted x l :
  consistent comparefn ->
  StronglySorted (precedes comparefn) l -> StronglySorted (precedes comparefn) (insert comparefn x l).
Proof.
  intros [Htot Htrans] Hl.
  induction Hl as [|y l Hl IH Hy]; simpl.
  - constructor; constructor.
  - destruct (comparefn x y <=? 0)%Z eqn:E.
    + apply Z.leb_le in E.
      constructor; [constructor; assumption|].
      constructor; [exact E|].
      eapply Forall_impl; [|exact Hy].
      intros z Hz. eapply Htrans; eassumption.
    + apply Z.leb_gt in E.
      constructor; [exact IH|].
      apply Forall_forall. intros z Hz.
      apply (Permutation_in _ (insert_perm x l)) in Hz.
      destruct Hz as [<-|Hz].
      * destruct (Htot y x) as [H|H]; [exact H|unfold precedes in H; lia].
      * rewrite Forall_forall in Hy. apply Hy, Hz.
Qed.

Lemma sort_sorted l :
  consistent comparefn -> StronglySorted (precedes comparefn) (sort comparefn l).
Proof.
  intros Hc. induction l as [|x l IH]; simpl.
  - constructor.
  - apply insert_sorted; assumption.
Qed.

Lemma equivalent_refl a : consistent comparefn -> equivalent comparefn a a.
Proof. intros [Htot _]. split; destruct (Htot a a); assumption. Qed.

Lemma Forall2_equivalent_refl l :
  consistent comparefn -> Forall2 (equivalent comparefn) l l.
Proof.
  intros Hc. induction l; constructor; [apply equivalent_refl, Hc|assumption].
Qed.

Lemma Forall2_equivalent_trans l1 l2 l3 :
  consistent comparefn ->
  Forall2 (equivalent comparefn) l1 l2 -> Forall2 (equivalent comparefn) l2 l3 ->
  Forall2 (equivalent comparefn) l1 l3.
Proof.
  intros [_ Htrans] H12. revert l3.
  induction H12 as [|a b l1 l2 [Hab Hba] _ IH]; intros l3 H23.
  - inversion H23. constructor.
  - inversion H23 as [|b' c l2' l3' [Hbc Hcb] Hrest]; subst.
    constructor; [split; eapply Htrans; eassumption|apply IH, Hrest].
Qed.

(** Insertion into sequences that agree up to elements that compare equal. *)
Lemma insert_equivalent x s s' :
  consistent comparefn ->
  Forall2 (equivalent comparefn) s s' ->
  Forall2 (equivalent comparefn) (insert comparefn x s) (insert comparefn x s').
Proof.
  intros Hc H. pose proof Hc as [Htot Htrans].
  induction H as [|y y' t t' [Hyy' Hy'y] Ht IH]; simpl.
  - constructor; [apply equivalent_refl, Hc|constructor].
  - destruct (Z.leb_spec (comparefn x y) 0) as [Hxy|Hxy];
      destruct (Z.leb_spec (comparefn x y') 0) as [Hxy'|Hxy'].
    + constructor; [apply equivalent_refl, Hc|].
      constructor; [split; assumption|exact Ht].
    + exfalso. pose proof (Htrans x y y' Hxy Hyy') as H. unfold precedes in H. lia.
    + exfalso. pose proof (Htrans x y' y Hxy' Hy'y) as H. unfold precedes in H. lia.
    + constructor; [split; assumption|exact IH].
Qed.

(** Settles the tests of [insert] from the comparisons at hand. *)
Ltac settle_tests :=
  repeat match goal with
         | H : (?c <= 0)%Z |- context [(?c <=? 0)%Z] =>
             rewrite (proj2 (Z.leb_le c 0) H)
         | H : (0 < ?c)%Z |- context [(?c <=? 0)%Z] =>
             rewrite (proj2 (Z.leb_gt c 0) H)
         end.

(** The order in which two elements are inserted shows only where they
    compare equal. *)
Lemma insert_insert x y s :
  consistent comparefn ->
  Forall2 (equivalent comparefn)
    (insert comparefn y (insert comparefn x s))
    (insert comparefn x (insert comparefn y s)).
Proof.
  intros Hc. pose proof Hc as [Htot Htrans].
  pose proof (fun l => Forall2_equivalent_refl l Hc) as Hrefl.
  unfold precedes in Htot, Htrans.
  pose proof (Htot x y) as Txy.
  destruct (Z.le_gt_cases (comparefn x y) 0) as [Hxy|Hxy];
    destruct (Z.le_gt_cases (comparefn y x) 0) as [Hyx|Hyx]; try lia;
    (induction s as [|z t IH];
     [ cbn [insert]; settle_tests; cbn [insert]; settle_tests
     | pose proof (Htrans x y z) as Txyz; pose proof (Htrans y x z) as Tyxz;
       destruct (Z.le_gt_cases (comparefn x z) 0) as [Hxz|Hxz];
       destruct (Z.le_gt_cases (comparefn y z) 0) as [Hyz|Hyz]; try lia;
       cbn [insert]; settle_tests; cbn [insert]; settle_tests ]);
    repeat first [ exact IH | apply Hrefl | apply (equivalent_refl _ Hc)
                 | constructor | split | (unfold precedes; lia) ].
Qed.

(** Sorting two arrangements of the same elements gives sequences that
    agree, position by position, up to elements that compare equal. *)
Lemma sort_arrangement l1 l2 :
  consistent comparefn ->
  Permutation l1 l2 ->
  Forall2 (equivalent comparefn) (sort comparefn l1) (sort comparefn l2).
Proof.
  intros Hc H. induction H as [|x l l' _ IH|x y l|l1 l2 l3 _ IH1 _ IH2].
  - constructor.
  - simpl. apply insert_equivalent; assumption.
  - simpl. apply insert_insert, Hc.
  - eapply Forall2_equivalent_trans; eassumption.
Qed.

End SortFacts.

Lemma codeUnitCompare_consistent : consistent codeUnitCompare.
Proof.
  assert (Hle : forall a b, precedes codeUnitCompare a b <-> String.compare a b <> Gt).
  { intros a b. unfold precedes, codeUnitCompare.
    destruct (String.compare a b); split; intros H; try lia; congruence. }
  split.
  - intros a b. rewrite !Hle.
    pose proof (String_as_OT.cmp_antisym b a) as H. unfold String_as_OT.cmp in H.
    rewrite H. destruct (String.compare a b); simpl; [left|left|right]; congruence.
  - intros a b c. rewrite !Hle. intros Hab Hbc.
    destruct (String.compare a b) eqn:Eab; [| |congruence].
    + apply String_as_OT.cmp_eq in Eab. subst. exact Hbc.
    + destruct (String.compare b c) eqn:Ebc; [| |congruence].
      * apply String_as_OT.cmp_eq in Ebc. subst. rewrite Eab. discriminate.
      * apply String_as_OT.cmp_lt in Eab. apply String_as_OT.cmp_lt in Ebc.
        pose proof (String_as_OT.lt_trans _ _ _ Eab Ebc) as H.
        apply String_as_OT.cmp_lt in H. unfold String_as_OT.cmp in H. rewrite H. discriminate.
Qed.

(** ** The traversal *)

Lemma folder_count_child d d' :
  In (inr d') (children d) -> folder_count d' < folder_count d.
Proof.
  destruct d as [p n cs]. simpl. intros Hin.
  induction cs as [|c cs IH]; simpl in *; [contradiction|].
  destruct Hin as [->|Hin]; [lia|]. specialize (IH Hin). lia.
Qed.

(** Induction over the folders of a tree. *)
Lemma TFolder_ind (P : TFolder -> Prop) :
  (forall d, (forall d', In (inr d') (children d) -> P d') -> P d) ->
  forall d, P d.
Proof.
  intros step d.
  remember (folder_count d) as n eqn:Hn.
  revert d Hn. induction n as [n IH] using lt_wf_ind.
  intros d ->. apply step. intros d' Hin.
  apply (IH (folder_count d')); [apply folder_count_child, Hin|reflexivity].
Qed.

Lemma child_files_In f cs : In f (child_files cs) <-> In (inl f) cs.
Proof.
  unfold child_files. rewrite in_flat_map. split.
  - intros [[g|d] [Hc Hf]]; simpl in Hf; [|contradiction].
    destruct Hf as [->|[]]. exact Hc.
  - intros H. exists (inl f). split; [exact H|left; reflexivity].
Qed.


Lemma files_of_unfold deep d :
  files_of deep d =
  flat_map (fun c : TAbstractFile =>
              match c with
              | inl f => [f]
              | inr d' => if deep then files_of deep d' else []
              end) (children d).
Proof. destruct d; reflexivity. Qed.


Lemma files_of_deep_In f d : In f (files_of true d) <-> inside d f.
Proof.
  split.
  - revert f. induction d as [d IH] using TFolder_ind. intros f.
    rewrite files_of_unfold, in_flat_map. intros [[g|d'] [Hc Hf]].
    + destruct Hf as [->|[]]. apply inside_child, Hc.
    + eapply inside_sub; [exact Hc|]. apply IH; assumption.
  - induction 1 as [d f Hc|d d' f Hc _ IH];
      rewrite files_of_unfold, in_flat_map.
    + exists (inl f). split; [exact Hc|left; reflexivity].
    + exists (inr d'). split; [exact Hc|exact IH].
Qed.

Section CollectFacts.

Variable minimatch : string -> string -> bool.
Variable localeCompare : string -> string -> Z.
Variable settings : MergePluginSettings.
Variable outputPath : string.
Variable excludedPatterns : list string.

Let sel := selected minimatch settings outputPath excludedPatterns.
Let step := visit minimatch settings outputPath excludedPatterns.
Let loop := collect_loop minimatch settings outputPath excludedPatterns.

Lemma files_of_In f d :
  In f (files_of (recursive settings) d) <-> visited settings d f.
Proof.
  split.
  - revert f. induction d as [d IH] using TFolder_ind. intros f.
    rewrite files_of_unfold, in_flat_map. intros [[g|d'] [Hc Hf]].
    + destruct Hf as [->|[]]. apply visited_child, Hc.
    + destruct (recursive settings) eqn:Hr; [|contradiction].
      eapply visited_sub; [exact Hr|exact Hc|]. apply IH; assumption.
  - induction 1 as [d f Hc|d d' f Hr Hc _ IH];
      rewrite files_of_unfold, in_flat_map.
    + exists (inl f). split; [exact Hc|left; reflexivity].
    + exists (inr d'). split; [exact Hc|]. rewrite Hr in *. exact IH.
Qed.

(** The inner loop: the selected file children go to the end of [files],
    the folder children, in recursive mode, onto the stack. *)
Lemma fold_visit cs stack files :
  fold_left step cs (stack, files) =
  ((rev (if recursive settings then child_folders cs else []) ++ stack)%list,
   (files ++ filter sel (child_files cs))%list).
Proof.
  revert stack files. induction cs as [|c cs IH]; intros stack files.
  - simpl. destruct (recursive settings); simpl; rewrite app_nil_r; reflexivity.
  - simpl fold_left. destruct c as [f|d]; simpl.
    + fold sel. destruct (sel f) eqn:Hf; rewrite IH; [|reflexivity].
      rewrite <- app_assoc. reflexivity.
    + destruct (recursive settings) eqn:Hr; rewrite IH; rewrite ?Hr; [|reflexivity].
      simpl. rewrite <- app_assoc. reflexivity.
Qed.

Lemma files_of_split d :
  Permutation
    (filter sel (files_of (recursive settings) d))
    (filter sel (child_files (children d))
     ++ flat_map (fun d' => filter sel (files_of (recursive settings) d'))
          (if recursive settings then child_folders (children d) else []))%list.
Proof.
  rewrite files_of_unfold.
  induction (children d) as [|c cs IH]; simpl.
  - destruct (recursive settings); constructor.
  - destruct c as [f|d']; simpl.
    + destruct (sel f); simpl; [apply perm_skip|]; exact IH.
    + destruct (recursive settings) eqn:Hr; simpl; [|exact IH].
      rewrite filter_app.
      eapply Permutation_trans; [apply Permutation_app_head, IH|].
      rewrite !app_assoc. apply Permutation_app_tail, Permutation_app_comm.
Qed.

(** The files the loop returns are the files it started with and the
    selected files of the trees on the stack. *)
Lemma collect_loop_perm stack files :
  Permutation (loop stack files)
    (files ++ flat_map (fun d => filter sel (files_of (recursive settings) d)) stack)%list.
Proof.
  unfold loop.
  funelim (collect_loop minimatch settings outputPath excludedPatterns stack files).
  - simpl. rewrite app_nil_r. apply Permutation_refl.
  - eapply Permutation_trans; [exact H|]. clear H Heqcall.
    fold step. rewrite fold_visit. simpl fst. simpl snd. simpl flat_map.
    rewrite flat_map_app, <- app_assoc.
    apply Permutation_app_head.
    rewrite app_assoc. apply Permutation_app_tail.
    eapply Permutation_trans; [|apply Permutation_sym, files_of_split].
    apply Permutation_app_head, Permutation_flat_map, Permutation_sym, Permutation_rev.
Qed.

(** The sequence [collectMarkdownFiles] returns holds, up to their order,
    the selected files of the traversal. *)
Lemma collectMarkdownFiles_perm folder :
  Permutation
    (collectMarkdownFiles minimatch localeCompare settings folder outputPath excludedPatterns)
    (filter sel (files_of (recursive settings) folder)).
Proof.
  unfold collectMarkdownFiles.
  eapply Permutation_trans; [apply sort_perm|].
  eapply Permutation_trans; [apply collect_loop_perm|].
  simpl. rewrite app_nil_r. apply Permutation_refl.
Qed.

Lemma collectMarkdownFiles_In folder f :
  In f (collectMarkdownFiles minimatch localeCompare settings folder outputPath excludedPatterns)
  <-> visited settings folder f /\ sel f = true.
Proof.
  rewrite <- files_of_In, <- filter_In.
  split; apply Permutation_in;
    [|apply Permutation_sym]; apply collectMarkdownFiles_perm.
Qed.

End CollectFacts.

(** ** The order of the collected files *)

Lemma consistent_by_key (key : TFile -> string) cmp :
  consistent cmp -> consistent (fun a b : TFile => cmp (key a) (key b)).
Proof.
  intros [Htot Htrans]. split.
  - intros a b. apply Htot.
  - intros a b c. apply Htrans.
Qed.

(** C1, as amended: for every folder tree, pattern list and settings, and
    every consistent [localeCompare], the sequence [collectMarkdownFiles]
    returns ascends by the [name] of the files (the file name with its
    extension, the field the comparison function reads); it holds the
    selected files of the traversal, each as often as the traversal meets
    it; and the name is the only key: a tree that offers the same selected
    files in another arrangement gives a sequence that agrees with this
    one, position by position, up to names that compare equal. *)
Theorem C1_sorted_by_name minimatch localeCompare settings folder outputPath excludedPatterns :
  consistent localeCompare ->
  ascending_by name localeCompare
    (collectMarkdownFiles minimatch localeCompare settings folder outputPath excludedPatterns)
  /\ Permutation
       (collectMarkdownFiles minimatch localeCompare settings folder outputPath excludedPatterns)
       (filter (selected minimatch settings outputPath excludedPatterns)
          (files_of (recursive settings) folder))
  /\ (forall folder',
        Permutation
          (filter (selected minimatch settings outputPath excludedPatterns)
             (files_of (recursive settings) folder))
          (filter (selected minimatch settings outputPath excludedPatterns)
             (files_of (recursive settings) folder')) ->
        Forall2 (fun a b => equivalent localeCompare (name a) (name b))
          (collectMarkdownFiles minimatch localeCompare settings folder
             outputPath excludedPatterns)
          (collectMarkdownFiles minimatch localeCompare settings folder'
             outputPath excludedPatterns)).
Proof.
  intros Hc. split; [|split].
  - unfold collectMarkdownFiles, ascending_by.
    apply (sort_sorted (fun a b => localeCompare (name a) (name b))).
    apply consistent_by_key, Hc.
  - apply collectMarkdownFiles_perm.
  - intros folder' Hperm. unfold collectMarkdownFiles.
    apply (sort_arrangement (fun a b => localeCompare (name a) (name b)));
      [apply consistent_by_key, Hc|].
    eapply Permutation_trans; [apply collect_loop_perm|].
    eapply Permutation_trans; [|apply Permutation_sym, collect_loop_perm].
    simpl. rewrite !app_nil_r. exact Hperm.
Qed.

Lemma C1_sorted_by_name_witness :
  consistent codeUnitCompare
  /\ ascending_by name codeUnitCompare
       (collectMarkdownFiles subMatch codeUnitCompare recursiveSettings sampleTree
          "a/b/out.md" ["sub/*.md"]).
Proof.
  split.
  - exact codeUnitCompare_consistent.
  - exact (proj1 (C1_sorted_by_name subMatch codeUnitCompare recursiveSettings sampleTree
                    "a/b/out.md" ["sub/*.md"] codeUnitCompare_consistent)).
Defined.

(** C1, as stated, fails: the notes [a.md] and [a b.md] are returned with
    [a b.md] first, because the names are compared and a space sorts before
    the full stop of [a.md] (in code unit order as in the collations of the
    locales); by base name [a], a prefix of [a b], comes first. *)
Lemma C1_counterexample :
  consistent codeUnitCompare
  /\ map basename
       (collectMarkdownFiles noMatch codeUnitCompare DEFAULT_SETTINGS twoNotes
          "merged/out.md" [])
     = ["a b"; "a"]
  /\ ~ ascending_by basename codeUnitCompare
        (collectMarkdownFiles noMatch codeUnitCompare DEFAULT_SETTINGS twoNotes
           "merged/out.md" []).
Proof.
  split; [exact codeUnitCompare_consistent|]. split; [reflexivity|].
  intros H. vm_compute in H.
  inversion H as [|a l _ Hall]; subst.
  inversion Hall as [|b l' Hab _]; subst.
  apply Hab. reflexivity.
Qed.

(** ** The filters *)

(** C2: for every folder tree, pattern list and settings, no file of the
    returned sequence has the destination path as its path. *)
Theorem C2_destination_never_collected minimatch localeCompare settings folder
    outputPath excludedPatterns :
  Forall (fun f => path f <> outputPath)
    (collectMarkdownFiles minimatch localeCompare settings folder outputPath excludedPatterns).
Proof.
  apply Forall_forall. intros f Hf.
  apply collectMarkdownFiles_In in Hf. destruct Hf as [_ Hsel].
  unfold selected in Hsel.
  repeat (apply andb_prop in Hsel; destruct Hsel as [Hsel ?]).
  intros Heq. apply String.eqb_eq in Heq.
  match goal with H : negb (String.eqb (path f) outputPath) = true |- _ =>
    rewrite Heq in H; discriminate H end.
Qed.

(** Without recursion the loop runs once: the stack is empty after the
    children of the source folder. *)
Lemma collectMarkdownFiles_shallow minimatch localeCompare settings folder
    outputPath excludedPatterns :
  recursive settings = false ->
  collectMarkdownFiles minimatch localeCompare settings folder outputPath excludedPatterns
  = sort (fun a b => localeCompare (name a) (name b))
      (filter (selected minimatch settings outputPath excludedPatterns)
         (child_files (children folder))).
Proof.
  intros Hr. unfold collectMarkdownFiles. f_equal.
  simp collect_loop. rewrite fold_visit, Hr. simpl.
  simp collect_loop. reflexivity.
Qed.

Lemma nested_not_child folder f :
  unique_paths folder -> nested folder f -> ~ In (inl f) (children folder).
Proof.
  unfold unique_paths. rewrite files_of_unfold.
  intros Hnd (d' & Hd' & Hin) Hf.
  apply files_of_deep_In in Hin.
  apply in_split in Hf. destruct Hf as (l1 & l2 & Hsplit).
  rewrite Hsplit in Hnd, Hd'.
  rewrite flat_map_app in Hnd. simpl in Hnd. rewrite map_app in Hnd. simpl in Hnd.
  apply NoDup_remove_2 in Hnd. apply Hnd.
  apply in_or_app.
  apply in_app_or in Hd'. destruct Hd' as [Hd'|[Hd'|Hd']]; [left| discriminate Hd' |right];
    apply in_map, in_flat_map; exists (inr d'); (split; [exact Hd'|exact Hin]).
Qed.

(** C3: for every folder tree, when [recursive] is false the returned
    sequence is the sort of the selected [TFile] children of the source
    folder, so every returned file is one of its immediate children; and,
    paths being unique within the tree, a file that lies inside a subfolder
    of the source folder is not returned, whatever its name and the
    patterns. *)
Theorem C3_non_recursive_direct_children minimatch localeCompare settings folder
    outputPath excludedPatterns :
  recursive settings = false ->
  collectMarkdownFiles minimatch localeCompare settings folder outputPath excludedPatterns
  = sort (fun a b => localeCompare (name a) (name b))
      (filter (selected minimatch settings outputPath excludedPatterns)
         (child_files (children folder)))
  /\ (forall f,
        In f (collectMarkdownFiles minimatch localeCompare settings folder
                outputPath excludedPatterns) ->
        In (inl f) (children folder))
  /\ (unique_paths folder ->
      forall f, nested folder f ->
        ~ In f (collectMarkdownFiles minimatch localeCompare settings folder
                  outputPath excludedPatterns)).
Proof.
  intros Hr.
  assert (Hchild : forall f,
             In f (collectMarkdownFiles minimatch localeCompare settings folder
                     outputPath excludedPatterns) ->
             In (inl f) (children folder)).
  { intros f Hf. rewrite (collectMarkdownFiles_shallow _ _ _ _ _ _ Hr) in Hf.
    apply sort_In, filter_In in Hf. apply child_files_In, Hf. }
  split; [apply collectMarkdownFiles_shallow, Hr|]. split; [exact Hchild|].
  intros Hu f Hn Hf. exact (nested_not_child folder f Hu Hn (Hchild f Hf)).
Qed.

Lemma sampleTree_unique_paths : unique_paths sampleTree.
Proof.
  unfold unique_paths. vm_compute.
  repeat (constructor; [simpl; intuition discriminate|]). constructor.
Qed.

Lemma C3_non_recursive_direct_children_witness :
  recursive hiddenSettings = false
  /\ unique_paths sampleTree
  /\ nested sampleTree (mdFile "sub/deep/" "d")
  /\ ~ In (mdFile "sub/deep/" "d")
         (collectMarkdownFiles noMatch codeUnitCompare hiddenSettings sampleTree
            "out.md" []).
Proof.
  assert (Hn : nested sampleTree (mdFile "sub/deep/" "d")).
  { eexists. split; [right; left; reflexivity|].
    eapply inside_sub; [right; left; reflexivity|].
    apply inside_child. left. reflexivity. }
  split; [reflexivity|]. split; [exact sampleTree_unique_paths|]. split; [exact Hn|].
  exact (proj2 (proj2 (C3_non_recursive_direct_children noMatch codeUnitCompare
                         hiddenSettings sampleTree "out.md" [] eq_refl))
           sampleTree_unique_paths _ Hn).
Defined.

(** C6: a file the traversal meets that passes the extension, hidden and
    self-exclusion filters is returned exactly when its path matches no
    pattern of the list: one matching pattern excludes it, none retains
    it. *)
Theorem C6_patterns_or_combined minimatch localeCompare settings folder
    outputPath excludedPatterns f :
  visited settings folder f ->
  extension f = "md" ->
  path f <> outputPath ->
  includeHidden settings = true \/ JS.startsWith (name f) "." = false ->
  ((exists pattern, In pattern excludedPatterns /\ minimatch (path f) pattern = true) ->
   ~ In f (collectMarkdownFiles minimatch localeCompare settings folder
             outputPath excludedPatterns))
  /\ ((forall pattern, In pattern excludedPatterns -> minimatch (path f) pattern = false) ->
      In f (collectMarkdownFiles minimatch localeCompare settings folder
              outputPath excludedPatterns)).
Proof.
  intros Hv Hext Hpath Hhid. split.
  - intros (pattern & Hin & Hm) Hf.
    apply collectMarkdownFiles_In in Hf. destruct Hf as [_ Hsel].
    unfold selected in Hsel.
    repeat (apply andb_prop in Hsel; destruct Hsel as [Hsel ?]).
    match goal with H : negb (existsb _ _) = true |- _ =>
      apply negb_true_iff in H;
      assert (Hex : existsb (fun pattern => minimatch (path f) pattern) excludedPatterns = true)
        by (apply existsb_exists; exists pattern; split; assumption);
      rewrite Hex in H; discriminate H end.
  - intros Hnone. apply collectMarkdownFiles_In. split; [exact Hv|].
    unfold selected.
    assert (Hex : existsb (fun pattern => minimatch (path f) pattern) excludedPatterns = false).
    { destruct (existsb _ excludedPatterns) eqn:E; [|reflexivity].
      apply existsb_exists in E. destruct E as (pattern & Hin & Hm).
      rewrite (Hnone pattern Hin) in Hm. discriminate Hm. }
    rewrite Hext, Hex. apply String.eqb_neq in Hpath. rewrite Hpath. simpl.
    destruct Hhid as [->| ->]; [reflexivity|apply orb_true_r].
Qed.

Lemma C6_patterns_or_combined_witness :
  ~ In (mdFile "sub/" "c")
      (collectMarkdownFiles subMatch codeUnitCompare recursiveSettings sampleTree
         "a/b/out.md" ["B*"; "sub/*.md"])
  /\ (In (mdFile "sub/deep/" "d")
        (collectMarkdownFiles subMatch codeUnitCompare recursiveSettings sampleTree
           "a/b/out.md" ["B*"; "sub/*.md"])).
Proof.
  split.
  - refine (proj1 (C6_patterns_or_combined subMatch codeUnitCompare recursiveSettings
                     sampleTree "a/b/out.md" ["B*"; "sub/*.md"] (mdFile "sub/" "c")
                     _ eq_refl _ (or_intror eq_refl)) _).
    + eapply visited_sub; [reflexivity|right; left; reflexivity|].
      apply visited_child. left. reflexivity.
    + discriminate.
    + exists "sub/*.md". split; [right; left; reflexivity|reflexivity].
  - refine (proj2 (C6_patterns_or_combined subMatch codeUnitCompare recursiveSettings
                     sampleTree "a/b/out.md" ["B*"; "sub/*.md"] (mdFile "sub/deep/" "d")
                     _ eq_refl _ (or_intror eq_refl)) _).
    + eapply visited_sub; [reflexivity|right; left; reflexivity|].
      eapply visited_sub; [reflexivity|right; left; reflexivity|].
      apply visited_child. left. reflexivity.
    + discriminate.
    + intros pattern [<-|[<-|[]]]; reflexivity.
Defined.

(** C7: with [includeHidden] false no returned file has a name that
    starts with a dot; with [includeHidden] true the returned files are the
    files the traversal meets that have the extension [md], a path other
    than the destination path and a path no pattern matches. *)
Theorem C7_hidden_files minimatch localeCompare settings folder outputPath excludedPatterns :
  (includeHidden settings = false ->
   Forall (fun f => JS.startsWith (name f) "." = false)
     (collectMarkdownFiles minimatch localeCompare settings folder
        outputPath excludedPatterns))
  /\ (includeHidden settings = true ->
      forall f,
        In f (collectMarkdownFiles minimatch localeCompare settings folder
                outputPath excludedPatterns)
        <-> visited settings folder f
            /\ extension f = "md"
            /\ path f <> outputPath
            /\ forall pattern, In pattern excludedPatterns ->
                 minimatch (path f) pattern = false).
Proof.
  split.
  - intros Hh. apply Forall_forall. intros f Hf.
    apply collectMarkdownFiles_In in Hf. destruct Hf as [_ Hsel].
    unfold selected in Hsel. rewrite Hh in Hsel.
    apply andb_prop in Hsel. destruct Hsel as [_ Hsel].
    simpl in Hsel. apply negb_true_iff in Hsel. exact Hsel.
  - intros Hh f. rewrite collectMarkdownFiles_In. unfold selected. rewrite Hh.
    rewrite orb_true_l, andb_true_r, !andb_true_iff, !negb_true_iff.
    rewrite String.eqb_eq, String.eqb_neq.
    split.
    + intros (Hv & (Hext & Hpath) & Hex). repeat split; try assumption.
      intros pattern Hin. destruct (minimatch (path f) pattern) eqn:E; [|reflexivity].
      assert (Ht : existsb (fun pattern => minimatch (path f) pattern) excludedPatterns = true)
        by (apply existsb_exists; exists pattern; split; assumption).
      rewrite Ht in Hex. discriminate Hex.
    + intros (Hv & Hext & Hpath & Hnone). repeat split; try assumption.
      destruct (existsb _ excludedPatterns) eqn:E; [|reflexivity].
      apply existsb_exists in E. destruct E as (pattern & Hin & Hm).
      rewrite (Hnone pattern Hin) in Hm. discriminate Hm.
Qed.

Lemma C7_hidden_files_witness :
  Forall (fun f => JS.startsWith (name f) "." = false)
    (collectMarkdownFiles subMatch codeUnitCompare recursiveSettings sampleTree
       "a/b/out.md" ["sub/*.md"])
  /\ In (mdFile "" ".hidden")
       (collectMarkdownFiles noMatch codeUnitCompare hiddenSettings sampleTree "out.md" []).
Proof.
  split.
  - exact (proj1 (C7_hidden_files subMatch codeUnitCompare recursiveSettings sampleTree
                    "a/b/out.md" ["sub/*.md"]) eq_refl).
  - apply (proj2 (C7_hidden_files noMatch codeUnitCompare hiddenSettings sampleTree
                    "out.md" []) eq_refl).
    split; [apply visited_child; do 4 right; left; reflexivity|].
    split; [reflexivity|]. split; [discriminate|]. intros pattern [].
Defined.

Lemma visited_below settings folder d f :
  recursive settings = true -> below folder d -> visited settings d f ->
  visited settings folder f.
Proof.
  intros Hr Hb. induction Hb as [folder|folder d' d Hc _ IH]; intros Hv.
  - exact Hv.
  - eapply visited_sub; [exact Hr|exact Hc|]. apply IH, Hv.
Qed.

(** C9: in recursive mode, with [includeHidden] false, a folder under the
    source folder whose name starts with a dot is descended into like any
    other: each of its [TFile] children that the condition on files selects
    is returned. *)
Theorem C9_hidden_folder_descended minimatch localeCompare settings folder
    outputPath excludedPatterns d f :
  recursive settings = true ->
  includeHidden settings = false ->
  below folder d ->
  JS.startsWith (folder_name d) "." = true ->
  In (inl f) (children d) ->
  selected minimatch settings outputPath excludedPatterns f = true ->
  In f (collectMarkdownFiles minimatch localeCompare settings folder
          outputPath excludedPatterns).
Proof.
  intros Hr _ Hb _ Hc Hsel.
  apply collectMarkdownFiles_In. split; [|exact Hsel].
  apply (visited_below settings folder d f Hr Hb).
  apply visited_child, Hc.
Qed.

Lemma C9_hidden_folder_descended_witness :
  In (mdFile ".trash/" "old")
    (collectMarkdownFiles subMatch codeUnitCompare recursiveSettings sampleTree
       "a/b/out.md" ["sub/*.md"]).
Proof.
  apply (C9_hidden_folder_descended subMatch codeUnitCompare recursiveSettings sampleTree
           "a/b/out.md" ["sub/*.md"]
           (mkTFolder ".trash" ".trash" [inl (mdFile ".trash/" "old")])).
  - reflexivity.
  - reflexivity.
  - eapply below_child; [do 3 right; left; reflexivity|apply below_self].
  - reflexivity.
  - left. reflexivity.
  - reflexivity.
Defined.

(** ** Strings *)


Lemma append_assoc a b c : (a ++ b) ++ c = a ++ (b ++ c).
Proof. induction a as [|x a IH]; simpl; [reflexivity|rewrite IH; reflexivity]. Qed.

Lemma length_append a b : String.length (a ++ b) = String.length a + String.length b.
Proof. induction a as [|x a IH]; simpl; [reflexivity|rewrite IH; reflexivity]. Qed.

Lemma prefix_iff p s : String.prefix p s = true <-> exists rest, s = p ++ rest.
Proof.
  revert p. induction s as [|b s IH]; intros [|a p]; simpl.
  - split; [intros _; exists ""; reflexivity|reflexivity].
  - split; [discriminate|intros [rest H]; discriminate H].
  - split; [intros _; exists (String b s); reflexivity|reflexivity].
  - destruct (ascii_dec a b) as [->|Hne].
    + rewrite IH. split; intros [rest H]; exists rest; [rewrite H; reflexivity|].
      injection H as H. exact H.
    + split; [discriminate|]. intros [rest H]. injection H as H1 H2. congruence.
Qed.

Lemma drop_append p rest : JS.drop (String.length p) (p ++ rest) = rest.
Proof. induction p as [|a p IH]; simpl; [destruct rest; reflexivity|exact IH]. Qed.

Lemma dropStart_split p s : exists l, s = l ++ JS.dropStart p s /\ all p l = true.
Proof.
  induction s as [|c s (l & Hs & Hl)]; simpl.
  - exists "". split; reflexivity.
  - destruct (p c) eqn:E.
    + exists (String c l). simpl. rewrite E, Hl, <- Hs. split; reflexivity.
    + exists "". split; reflexivity.
Qed.

Lemma dropStart_first p s c : first (JS.dropStart p s) = Some c -> p c = false.
Proof.
  induction s as [|x s IH]; simpl; [discriminate|].
  destruct (p x) eqn:E; [exact IH|].
  simpl. intros H. injection H as <-. exact E.
Qed.

Lemma dropEnd_split p s : exists r, s = JS.dropEnd p s ++ r /\ all p r = true.
Proof.
  induction s as [|c s (r & Hs & Hr)]; simpl.
  - exists "". split; reflexivity.
  - destruct (JS.dropEnd p s) as [|y t] eqn:Et.
    + simpl in Hs. subst r. destruct (p c) eqn:E.
      * exists (String c s). simpl. rewrite E, Hr. split; reflexivity.
      * exists s. split; [reflexivity|exact Hr].
    + exists r. simpl in *. rewrite <- Hs. split; [reflexivity|exact Hr].
Qed.

Lemma dropEnd_last p s c : last (JS.dropEnd p s) = Some c -> p c = false.
Proof.
  induction s as [|x s IH]; simpl; [discriminate|].
  destruct (JS.dropEnd p s) as [|y t] eqn:Et.
  - destruct (p x) eqn:E; simpl; [discriminate|].
    intros H. injection H as <-. exact E.
  - exact IH.
Qed.

Lemma dropEnd_first p s c : first (JS.dropEnd p s) = Some c -> first s = Some c.
Proof.
  destruct s as [|x s]; simpl; [discriminate|].
  destruct (JS.dropEnd p s); [destruct (p x)|]; simpl; [discriminate| |]; exact (fun H => H).
Qed.

(** Dropping at the start and then at the end strips the two ends. *)
Lemma dropEnd_dropStart_stripped p s : stripped p s (JS.dropEnd p (JS.dropStart p s)).
Proof.
  destruct (dropStart_split p s) as (l & Hs & Hl).
  destruct (dropEnd_split p (JS.dropStart p s)) as (r & Ht & Hr).
  split; [|split].
  - exists l, r. split; [|split; assumption]. rewrite <- Ht. exact Hs.
  - intros c Hc. apply dropEnd_first in Hc. exact (dropStart_first p s c Hc).
  - apply dropEnd_last.
Qed.

(** [replace] substitutes the leftmost occurrence, and leaves a string
    without an occurrence as it is. *)
Lemma replace_substituted pat rep s : substituted pat rep s (JS.replace pat rep s).
Proof.
  induction s as [|c s IH].
  - simpl. destruct pat as [|a pat]; simpl.
    + left. exists "", "". split; [reflexivity|]. split; [intros; simpl; lia|reflexivity].
    + right. split; [|reflexivity]. intros [|x pre] post H; discriminate H.
  - cbn [JS.replace]. destruct (String.prefix pat (String c s)) eqn:E.
    + apply prefix_iff in E. destruct E as [rest E].
      left. exists "", rest. simpl. split; [exact E|]. split; [intros; lia|].
      rewrite E, drop_append. reflexivity.
    + assert (Hhead : forall pre post, String c s = pre ++ pat ++ post ->
                exists pre', pre = String c pre' /\ s = pre' ++ pat ++ post).
      { intros [|x pre] post H.
        - simpl in H. assert (String.prefix pat (String c s) = true) as Hp
            by (apply prefix_iff; exists post; exact H).
          rewrite Hp in E. discriminate E.
        - simpl in H. injection H as -> H. exists pre. split; [reflexivity|exact H]. }
      destruct IH as [(pre & post & Hs & Hmin & Hr)|[Hnone Hr]].
      * left. exists (String c pre), post. simpl. rewrite <- Hs, Hr.
        split; [reflexivity|]. split; [|reflexivity].
        intros pre' post' H. destruct (Hhead pre' post' H) as (pre'' & -> & H').
        simpl. apply le_n_S, (Hmin pre'' post' H').
      * right. rewrite Hr. split; [|reflexivity].
        intros pre post H. destruct (Hhead pre post H) as (pre' & _ & H').
        exact (Hnone pre' post H').
Qed.

Lemma substring_0_length s : substring 0 (String.length s) s = s.
Proof. induction s as [|c s IH]; simpl; [reflexivity|rewrite IH; reflexivity]. Qed.

Lemma substring_skip a b m :
  substring (String.length a) m (a ++ b) = substring 0 m b.
Proof. induction a as [|c a IH]; simpl; [reflexivity|exact IH]. Qed.

Lemma substring_tail s n :
  n <= String.length s ->
  exists stem, s = stem ++ substring n (String.length s - n) s.
Proof.
  revert s. induction n as [|n IH]; intros s Hn.
  - exists "". rewrite Nat.sub_0_r, substring_0_length. reflexivity.
  - destruct s as [|c s]; simpl in Hn; [lia|].
    destruct (IH s) as [stem Hs]; [lia|].
    exists (String c stem). simpl. rewrite <- Hs. reflexivity.
Qed.

Lemma endsWith_iff s p : JS.endsWith s p = true <-> exists stem, s = stem ++ p.
Proof.
  unfold JS.endsWith. rewrite andb_true_iff, Nat.leb_le, String.eqb_eq. split.
  - intros [Hlen Hsub].
    destruct (substring_tail s (String.length s - String.length p)) as [stem Hs]; [lia|].
    exists stem.
    replace (String.length s - (String.length s - String.length p))
      with (String.length p) in Hs by lia.
    rewrite Hsub in Hs. exact Hs.
  - intros [stem ->]. rewrite length_append. split; [lia|].
    replace (String.length stem + String.length p - String.length p)
      with (String.length stem) by lia.
    rewrite substring_skip. apply substring_0_length.
Qed.

Lemma toLowerCase_append a b :
  JS.toLowerCase (a ++ b) = JS.toLowerCase a ++ JS.toLowerCase b.
Proof. induction a as [|c a IH]; simpl; [reflexivity|rewrite IH; reflexivity]. Qed.

Lemma toLowerCase_split s a b :
  JS.toLowerCase s = a ++ b ->
  exists s1 s2, s = s1 ++ s2 /\ JS.toLowerCase s1 = a /\ JS.toLowerCase s2 = b.
Proof.
  revert s. induction a as [|x a IH]; intros s H.
  - exists "", s. repeat split. exact H.
  - destruct s as [|c s]; simpl in H; [discriminate H|].
    injection H as Hc H. destruct (IH s H) as (s1 & s2 & -> & H1 & H2).
    exists (String c s1), s2. simpl. rewrite Hc, H1. repeat split. exact H2.
Qed.

Lemma lowerChar_dot c : JS.lowerChar c = "."%char <-> c = "."%char.
Proof.
  destruct c as [[] [] [] [] [] [] [] []]; vm_compute;
    split; intros H; solve [reflexivity | discriminate H].
Qed.

Lemma lowerChar_m c : JS.lowerChar c = "m"%char <-> c = "m"%char \/ c = "M"%char.
Proof.
  destruct c as [[] [] [] [] [] [] [] []]; vm_compute;
    split; intros H;
    solve [ left; reflexivity | right; reflexivity | discriminate H
          | destruct H as [H|H]; discriminate H | reflexivity ].
Qed.

Lemma lowerChar_d c : JS.lowerChar c = "d"%char <-> c = "d"%char \/ c = "D"%char.
Proof.
  destruct c as [[] [] [] [] [] [] [] []]; vm_compute;
    split; intros H;
    solve [ left; reflexivity | right; reflexivity | discriminate H
          | destruct H as [H|H]; discriminate H | reflexivity ].
Qed.

(** The test of line 85 holds exactly for the names that end with [.md] in
    some mix of cases. *)
Lemma endsWith_md_iff s :
  JS.endsWith (JS.toLowerCase s) ".md" = true <-> ends_with_md s.
Proof.
  rewrite endsWith_iff. split.
  - intros [stem H]. apply toLowerCase_split in H.
    destruct H as (s1 & s2 & -> & _ & H2).
    destruct s2 as [|c1 [|c2 [|c3 [|c4 s2]]]]; simpl in H2; try discriminate H2.
    injection H2 as H1 H2 H3.
    exists s1, c2, c3. apply (proj1 (lowerChar_dot c1)) in H1. subst c1.
    split; [reflexivity|]. split; [apply lowerChar_m, H2|apply lowerChar_d, H3].
  - intros (stem & m & d & -> & Hm & Hd).
    exists (JS.toLowerCase stem). rewrite toLowerCase_append. simpl.
    apply (proj2 (lowerChar_m m)) in Hm. apply (proj2 (lowerChar_d d)) in Hd.
    rewrite Hm, Hd. reflexivity.
Qed.

(** ** The date *)

Lemma all_append p a b : all p (a ++ b) = all p a && all p b.
Proof.
  induction a as [|c a IH]; simpl; [reflexivity|].
  rewrite IH, andb_assoc. reflexivity.
Qed.

Lemma digit_value n : nat_of_ascii (digit n) = 48 + n mod 10.
Proof.
  unfold digit. apply nat_ascii_embedding.
  pose proof (Nat.mod_upper_bound n 10). lia.
Qed.

Lemma length_digits k n : String.length (digits k n) = k.
Proof.
  revert n. induction k as [|k IH]; intros n; simpl; [reflexivity|].
  rewrite length_append, IH. simpl. lia.
Qed.

Lemma decimal_value_append a b acc :
  decimal_value (a ++ b) acc =
  match decimal_value a acc with
  | Some x => decimal_value b x
  | None => None
  end.
Proof.
  revert acc. induction a as [|c a IH]; intros acc; cbn [append decimal_value];
    [reflexivity|].
  destruct ((48 <=? nat_of_ascii c) && (nat_of_ascii c <=? 57)); [apply IH|reflexivity].
Qed.

Lemma decimal_value_digits k n acc :
  decimal_value (digits k n) acc = Some (acc * 10 ^ k + n mod 10 ^ k).
Proof.
  revert n acc. induction k as [|k IH]; intros n acc.
  - simpl. f_equal. lia.
  - cbn [digits]. rewrite decimal_value_append, IH.
    cbn [decimal_value]. rewrite digit_value.
    pose proof (Nat.mod_upper_bound n 10 ltac:(lia)) as Hlt.
    replace ((48 <=? 48 + n mod 10) && (48 + n mod 10 <=? 57)) with true
      by (symmetry; apply andb_true_iff; split; apply Nat.leb_le; lia).
    f_equal. rewrite Nat.pow_succ_r', Nat.Div0.mod_mul_r. lia.
Qed.

Lemma digit_not_T n : Ascii.eqb (digit n) "T"%char = false.
Proof.
  apply Ascii.eqb_neq. intros H.
  pose proof (digit_value n) as Hv. rewrite H in Hv.
  change (nat_of_ascii "T"%char) with 84 in Hv.
  pose proof (Nat.mod_upper_bound n 10 ltac:(lia)). lia.
Qed.

Lemma digits_no_T k n :
  all (fun c => negb (Ascii.eqb c "T"%char)) (digits k n) = true.
Proof.
  revert n. induction k as [|k IH]; intros n; cbn [digits]; [reflexivity|].
  rewrite all_append, IH. cbn [all]. rewrite digit_not_T. reflexivity.
Qed.

Lemma split_hd sep a b :
  all (fun c => negb (Ascii.eqb c sep)) a = true ->
  hd EmptyString (JS.split sep (a ++ String sep b)) = a.
Proof.
  induction a as [|c a IH]; simpl.
  - intros _. rewrite Ascii.eqb_refl. reflexivity.
  - intros H. apply andb_true_iff in H. destruct H as [Hc Ha].
    apply negb_true_iff in Hc. rewrite Hc. specialize (IH Ha).
    destruct (JS.split sep (a ++ String sep b)); simpl in *; rewrite IH; reflexivity.
Qed.

(** For a year of four digits [today] is the ten characters before the [T]
    of the time stamp. *)
Lemma today_digits now :
  (0 <= year now <= 9999)%Z ->
  today now
  = digits 4 (Z.to_nat (year now)) ++ "-" ++ digits 2 (month now) ++ "-"
      ++ digits 2 (day now).
Proof.
  intros Hy. unfold today, toISOString, isoYear.
  replace ((0 <=? year now)%Z && (year now <=? 9999)%Z) with true
    by (symmetry; apply andb_true_iff; split; apply Z.leb_le; lia).
  assert (Hassoc : forall Y Mo D rest,
             Y ++ "-" ++ Mo ++ "-" ++ D ++ "T" ++ rest
             = (Y ++ "-" ++ Mo ++ "-" ++ D) ++ String "T"%char rest)
    by (intros; rewrite !append_assoc; reflexivity).
  rewrite Hassoc. apply split_hd.
  rewrite !all_append, !digits_no_T. reflexivity.
Qed.

Lemma today_date_form now :
  valid_date now -> (0 <= year now <= 9999)%Z -> date_form now (today now).
Proof.
  intros (Hm & Hd & _) Hy. rewrite (today_digits now Hy).
  exists (digits 4 (Z.to_nat (year now))), (digits 2 (month now)), (digits 2 (day now)).
  rewrite !length_digits, !decimal_value_digits.
  repeat split; f_equal; simpl (10 ^ _).
  - rewrite Nat.mod_small; lia.
  - rewrite Nat.mod_small; lia.
  - rewrite Nat.mod_small; lia.
Qed.

(** ** The description of the destination path determines it *)

Lemma dropStart_app_all p l x :
  all p l = true -> JS.dropStart p (l ++ x) = JS.dropStart p x.
Proof.
  induction l as [|c l IH]; simpl; [reflexivity|].
  intros H. apply andb_true_iff in H. destruct H as [Hc Hl].
  rewrite Hc. apply IH, Hl.
Qed.

Lemma dropStart_all p r : all p r = true -> JS.dropStart p r = "".
Proof.
  induction r as [|c r IH]; simpl; [reflexivity|].
  intros H. apply andb_true_iff in H. destruct H as [Hc Hr].
  rewrite Hc. apply IH, Hr.
Qed.

Lemma dropStart_keep p x :
  (forall c, first x = Some c -> p c = false) -> JS.dropStart p x = x.
Proof.
  destruct x as [|c x]; simpl; [reflexivity|].
  intros H. rewrite (H c eq_refl). reflexivity.
Qed.

Lemma dropEnd_all p r : all p r = true -> JS.dropEnd p r = "".
Proof.
  induction r as [|c r IH]; simpl; [reflexivity|].
  intros H. apply andb_true_iff in H. destruct H as [Hc Hr].
  rewrite (IH Hr), Hc. reflexivity.
Qed.

Lemma dropEnd_app_all p t r :
  all p r = true -> JS.dropEnd p (t ++ r) = JS.dropEnd p t.
Proof.
  intros Hr. induction t as [|c t IH]; simpl.
  - apply dropEnd_all, Hr.
  - rewrite IH. reflexivity.
Qed.

Lemma dropEnd_keep p t :
  (forall c, last t = Some c -> p c = false) -> JS.dropEnd p t = t.
Proof.
  induction t as [|c t IH]; [reflexivity|].
  intros H. cbn [JS.dropEnd]. destruct t as [|c' t].
  - simpl. rewrite (H c eq_refl). reflexivity.
  - rewrite IH; [reflexivity|]. intros x Hx. apply H. exact Hx.
Qed.

(** Only one string is [s] with its two ends stripped. *)
Lemma stripped_unique p s t :
  stripped p s t -> t = JS.dropEnd p (JS.dropStart p s).
Proof.
  intros ((l & r & -> & Hl & Hr) & Hfirst & Hlast).
  rewrite (dropStart_app_all p l _ Hl).
  destruct t as [|c t].
  - simpl. rewrite (dropStart_all p r Hr). reflexivity.
  - rewrite dropStart_keep by (intros x Hx; apply Hfirst; exact Hx).
    rewrite (dropEnd_app_all p _ r Hr). symmetry. apply dropEnd_keep, Hlast.
Qed.

Lemma append_same_length a a' b b' :
  a ++ b = a' ++ b' -> String.length a = String.length a' -> a = a' /\ b = b'.
Proof.
  revert a'. induction a as [|c a IH]; intros [|c' a'] H Hlen;
    simpl in *; try discriminate Hlen.
  - split; [reflexivity|exact H].
  - injection H as -> H. injection Hlen as Hlen.
    destruct (IH a' H Hlen) as [-> ->]. split; reflexivity.
Qed.

Lemma substituted_unique pat rep s r r' :
  substituted pat rep s r -> substituted pat rep s r' -> r = r'.
Proof.
  intros [(pre & post & Hs & Hmin & ->)|[Hnone ->]]
         [(pre' & post' & Hs' & Hmin' & ->)|[Hnone' ->]].
  - pose proof (Hmin pre' post' Hs') as H1. pose proof (Hmin' pre post Hs) as H2.
    assert (Hlen : String.length pre = String.length pre') by lia.
    rewrite Hs in Hs'.
    destruct (append_same_length _ _ _ _ Hs' Hlen) as [-> Hrest].
    destruct (append_same_length _ _ _ _ Hrest eq_refl) as [_ ->]. reflexivity.
  - exfalso. exact (Hnone' pre post Hs).
  - exfalso. exact (Hnone pre' post' Hs').
  - reflexivity.
Qed.

Lemma decimal_value_bounds s acc n :
  decimal_value s acc = Some n ->
  acc * 10 ^ String.length s <= n < (acc + 1) * 10 ^ String.length s.
Proof.
  revert acc. induction s as [|c s IH]; intros acc; cbn [decimal_value String.length].
  - intros H. injection H as <-. simpl. lia.
  - destruct ((48 <=? nat_of_ascii c) && (nat_of_ascii c <=? 57)) eqn:E; [|discriminate].
    apply andb_true_iff in E. destruct E as [E1 E2].
    apply Nat.leb_le in E1, E2.
    intros H. apply IH in H. rewrite Nat.pow_succ_r'. nia.
Qed.

Lemma nat_of_ascii_inj c c' : nat_of_ascii c = nat_of_ascii c' -> c = c'.
Proof.
  intros H. rewrite <- (ascii_nat_embedding c), <- (ascii_nat_embedding c'), H.
  reflexivity.
Qed.

(** Two strings of digits of one length that write one number are one
    string. *)
Lemma decimal_value_unique s s' acc n :
  String.length s = String.length s' ->
  decimal_value s acc = Some n -> decimal_value s' acc = Some n -> s = s'.
Proof.
  revert s' acc. induction s as [|c s IH]; intros [|c' s'] acc Hlen;
    cbn [String.length] in Hlen; try discriminate Hlen; [reflexivity|].
  cbn [decimal_value].
  destruct ((48 <=? nat_of_ascii c) && (nat_of_ascii c <=? 57)) eqn:E; [|discriminate].
  destruct ((48 <=? nat_of_ascii c') && (nat_of_ascii c' <=? 57)) eqn:E'; [|discriminate].
  apply andb_true_iff in E, E'. destruct E as [E1 E2]. destruct E' as [E1' E2'].
  apply Nat.leb_le in E1, E2, E1', E2'.
  injection Hlen as Hlen. intros H H'.
  pose proof (decimal_value_bounds _ _ _ H) as B.
  pose proof (decimal_value_bounds _ _ _ H') as B'.
  rewrite <- Hlen in B'.
  assert (Hc : nat_of_ascii c = nat_of_ascii c').
  { pose proof (Nat.pow_nonzero 10 (String.length s) ltac:(lia)). nia. }
  apply nat_of_ascii_inj in Hc. subst c'.
  f_equal. exact (IH s' _ Hlen H H').
Qed.

Lemma date_form_unique now d d' : date_form now d -> date_form now d' -> d = d'.
Proof.
  intros (y & m & dd & -> & Ly & Lm & Ld & Vy & Vm & Vd)
         (y' & m' & dd' & -> & Ly' & Lm' & Ld' & Vy' & Vm' & Vd').
  rewrite (decimal_value_unique y y' 0 _ ltac:(congruence) Vy Vy').
  rewrite (decimal_value_unique m m' 0 _ ltac:(congruence) Vm Vm').
  rewrite (decimal_value_unique dd dd' 0 _ ltac:(congruence) Vd Vd').
  reflexivity.
Qed.

(** At most one path fits the description. *)
Lemma resolveDestination_amended_functional settings now r r' :
  resolveDestination_amended settings now r ->
  resolveDestination_amended settings now r' -> r = r'.
Proof.
  intros (t & d & n & f & g0 & g & Ht & Hd & Hn & Hf & Hg0 & Hg & Hr)
         (t' & d' & n' & f' & g0' & g' & Ht' & Hd' & Hn' & Hf' & Hg0' & Hg' & Hr').
  apply stripped_unique in Ht, Ht', Hg0, Hg0'. subst t t' g0 g0'.
  apply stripped_unique in Hg, Hg'. subst g g'.
  rewrite (date_form_unique now d' d Hd' Hd) in Hn'.
  rewrite (substituted_unique _ _ _ _ _ Hn' Hn) in Hf'.
  assert (f' = f) as ->.
  { destruct Hf as [[He ->]|[He ->]]; destruct Hf' as [[He' ->]|[He' ->]];
      solve [reflexivity | contradiction]. }
  destruct Hr as [[Hz ->]|[Hz ->]]; destruct Hr' as [[Hz' ->]|[Hz' ->]];
    solve [reflexivity | contradiction].
Qed.

(** ** The destination path *)

(** The destination path of the code fits its description. *)
Lemma resolvedOutputPath_amended settings now :
  valid_date now ->
  (0 <= year now <= 9999)%Z ->
  resolveDestination_amended settings now (resolvedOutputPath settings now).
Proof.
  intros Hvalid Hyear.
  exists (JS.trim (outputFileName settings)), (today now),
    (JS.replace "{date}" (today now) (JS.trim (outputFileName settings))),
    (resolvedFileName settings now),
    (JS.trim (outputFolder settings)), (resolvedFolderPath settings).
  split; [apply dropEnd_dropStart_stripped|].
  split; [apply today_date_form; assumption|].
  split; [apply replace_substituted|].
  split.
  { unfold resolvedFileName.
    destruct (JS.endsWith _ ".md") eqn:E; simpl.
    - left. split; [apply endsWith_md_iff, E|reflexivity].
    - right. split; [|reflexivity]. intros H. apply endsWith_md_iff in H. congruence. }
  split; [apply dropEnd_dropStart_stripped|].
  split; [apply dropEnd_dropStart_stripped|].
  unfold resolvedOutputPath.
  destruct (resolvedFolderPath settings) eqn:E; simpl.
  - left. split; reflexivity.
  - right. split; [discriminate|reflexivity].
Qed.

(** C4, as amended: for every configuration, and a clock whose year has
    four digits, the destination path is the one path built as follows:
    the file name template is trimmed; the leftmost [{date}] (the one
    [replace] with a string pattern substitutes; later ones stay) gives way
    to the date of the invocation, the day of the time stamp in UTC,
    written [YYYY-MM-DD]; [.md] is appended unless the name ends with it in
    some mix of cases; the output folder, first trimmed of white space
    (line 79), loses the slashes at its ends; folder and file name are
    joined with one slash, and the folder is left out when it is empty. *)
Theorem C4_destination_path settings now :
  valid_date now ->
  (0 <= year now <= 9999)%Z ->
  resolveDestination_amended settings now (resolvedOutputPath settings now)
  /\ (forall result,
        resolveDestination_amended settings now result ->
        result = resolvedOutputPath settings now).
Proof.
  intros Hvalid Hyear.
  pose proof (resolvedOutputPath_amended settings now Hvalid Hyear) as Hspec.
  split; [exact Hspec|].
  intros result Hresult.
  exact (resolveDestination_amended_functional settings now _ _ Hresult Hspec).
Qed.

(** Scenario D: the template [out-{date}.md] on the first of January 2024. *)
Lemma C4_destination_path_witness :
  valid_date newYear2024
  /\ (0 <= year newYear2024 <= 9999)%Z
  /\ resolveDestination_amended recursiveSettings newYear2024 "a/b/out-2024-01-01.md".
Proof.
  assert (Hv : valid_date newYear2024) by (unfold valid_date; simpl; lia).
  assert (Hy : (0 <= year newYear2024 <= 9999)%Z) by (simpl; lia).
  split; [exact Hv|]. split; [exact Hy|].
  exact (proj1 (C4_destination_path recursiveSettings newYear2024 Hv Hy)).
Defined.

(** C4, as stated, fails.  With the output folder [ /a/ ] between blanks
    the code trims the blanks and then strips the slashes, to [a]; as
    stated the slashes stay, shielded by the blanks.  With the template
    [{date}-{date}] the code substitutes the first placeholder only. *)
Lemma C4_counterexample :
  resolvedOutputPath paddedFolderSettings newYear2024 = "a/n.md"
  /\ resolveDestination_stated paddedFolderSettings newYear2024 = " /a/ /n.md"
  /\ resolvedOutputPath twoDatesSettings newYear2024 = "2024-01-01-{date}.md"
  /\ resolveDestination_stated twoDatesSettings newYear2024 = "2024-01-01-2024-01-01.md"
  /\ ~ (forall settings now,
          resolvedOutputPath settings now = resolveDestination_stated settings now).
Proof.
  split; [reflexivity|]. split; [reflexivity|]. split; [reflexivity|].
  split; [reflexivity|].
  intros H. specialize (H paddedFolderSettings newYear2024).
  vm_compute in H. discriminate H.
Qed.

(** Where the folder has no blanks around it and the template holds the
    placeholder once, as in the default settings, the two descriptions
    give the same path. *)
Example resolveDestination_stated_default :
  resolveDestination_stated DEFAULT_SETTINGS newYear2024
  = resolvedOutputPath DEFAULT_SETTINGS newYear2024.
Proof. reflexivity. Qed.

(** ** Computations over the vault *)

Section MonadFacts.

Context {host : VaultHost}.

Lemma bind_ext {A B} (m : M A) (k k' : A -> M B) v :
  (forall a v', k a v' = k' a v') -> bind m k v = bind m k' v.
Proof.
  intros H. unfold bind. destruct (m v) as [[[a|] v'] l]; [|reflexivity].
  rewrite H. reflexivity.
Qed.

Lemma emits_ret {A} P (a : A) : emits P (ret a).
Proof. intros v. constructor. Qed.

Lemma emits_ask {A} P (q : Vault -> A) : emits P (ask q).
Proof. intros v. constructor. Qed.

Lemma emits_emit P e : P e = true -> emits P (emit e).
Proof. intros H v. simpl. constructor; [exact H|constructor]. Qed.

Lemma emits_call P e op : P e = true -> emits P (call e op).
Proof.
  intros H v. unfold call. destruct (op v); simpl; (constructor; [exact H|constructor]).
Qed.

Lemma emits_bind {A B} P (m : M A) (k : A -> M B) :
  emits P m -> (forall a, emits P (k a)) -> emits P (bind m k).
Proof.
  intros Hm Hk v. unfold bind. specialize (Hm v).
  destruct (m v) as [[[a|] v'] l]; simpl in *; [|exact Hm].
  specialize (Hk a v'). destruct (k a v') as [[r v''] l']. simpl in *.
  apply Forall_app. split; assumption.
Qed.

Lemma emits_tryCatch {A} P (m handler : M A) :
  emits P m -> emits P handler -> emits P (tryCatch m handler).
Proof.
  intros Hm Hh v. unfold tryCatch. specialize (Hm v).
  destruct (m v) as [[[a|] v'] l]; simpl in *; [exact Hm|].
  specialize (Hh v'). destruct (handler v') as [[r v''] l']. simpl in *.
  apply Forall_app. split; assumption.
Qed.

End MonadFacts.

(** ** The folder chain *)

Section FolderChainFacts.

Context {host : VaultHost}.

Lemma inits_nonempty {A} (l pre : list A) : In pre (inits l) -> pre <> [].
Proof.
  destruct l as [|x l]; simpl; [contradiction|].
  intros [<-|H]; [discriminate|].
  apply in_map_iff in H. destruct H as (pre' & <- & _). discriminate.
Qed.

Lemma join_cons sep x pre :
  pre <> [] -> JS.join sep (x :: pre) = x ++ sep ++ JS.join sep pre.
Proof. destruct pre; [congruence|reflexivity]. Qed.

Lemma truthy_append a b : JS.truthy a = true -> JS.truthy (a ++ b) = true.
Proof. destruct a; [discriminate|reflexivity]. Qed.


(** The paths the loop builds from a current path that is not empty. *)
Lemma chain_paths part rest currentPath :
  map (fun pre => currentPath ++ "/" ++ JS.join "/" pre) (map (cons part) (inits rest))
  = map (fun pre => (currentPath ++ "/" ++ part) ++ "/" ++ JS.join "/" pre) (inits rest).
Proof.
  rewrite map_map. apply map_ext_in. intros pre Hpre.
  rewrite (join_cons "/" part pre (inits_nonempty _ _ Hpre)).
  rewrite !append_assoc. reflexivity.
Qed.

Lemma ensureFolderExists_loop_paths parts currentPath v :
  JS.truthy currentPath = true ->
  ensureFolderExists_loop parts currentPath v
  = ensurePrefixes
      (map (fun pre => currentPath ++ "/" ++ JS.join "/" pre) (inits parts)) v.
Proof.
  revert currentPath v. induction parts as [|part rest IH]; intros currentPath v Ht.
  - reflexivity.
  - cbn [ensureFolderExists_loop inits map ensurePrefixes JS.join]. rewrite Ht.
    apply bind_ext. intros present v1. apply bind_ext. intros _ v2.
    rewrite chain_paths. apply IH, truthy_append, Ht.
Qed.

Lemma split_first_segment c s :
  c <> "/"%char ->
  exists part rest,
    JS.split "/"%char (String c s) = part :: rest /\ JS.truthy part = true.
Proof.
  intros Hc. cbn [JS.split].
  apply Ascii.eqb_neq in Hc. rewrite Hc.
  destruct (JS.split "/"%char s) as [|p ps]; eexists; eexists; split; reflexivity.
Qed.

(** For a path that is not empty and does not start with a slash,
    [ensureFolderExists] handles the prefix paths in turn. *)
Lemma ensureFolderExists_prefixes path v :
  path <> "" ->
  (forall c, first path = Some c -> c <> "/"%char) ->
  ensureFolderExists path v = ensurePrefixes (prefix_paths path) v.
Proof.
  intros Hne Hfirst. unfold ensureFolderExists, prefix_paths.
  destruct path as [|c s]; [congruence|]. cbn [JS.truthy negb].
  destruct (split_first_segment c s (Hfirst c eq_refl)) as (part & rest & -> & Hpart).
  cbn [ensureFolderExists_loop inits map ensurePrefixes JS.join JS.truthy].
  apply bind_ext. intros present v1. apply bind_ext. intros _ v2.
  rewrite ensureFolderExists_loop_paths by exact Hpart.
  f_equal. rewrite map_map. apply map_ext_in. intros pre Hpre.
  rewrite (join_cons "/" part pre (inits_nonempty _ _ Hpre)). reflexivity.
Qed.

Lemma resolvedFolderPath_first settings c :
  first (resolvedFolderPath settings) = Some c -> c <> "/"%char.
Proof.
  unfold resolvedFolderPath, JS.stripSlashes. intros H.
  apply dropEnd_first, dropStart_first in H.
  intros ->. discriminate H.
Qed.

Lemma ensurePrefixes_cons p rest v :
  ensurePrefixes (p :: rest) v =
  match getFolderByPath v p with
  | Some _ => ensurePrefixes rest v
  | None =>
      match createFolder v p with
      | Some v' =>
          match ensurePrefixes rest v' with
          | (r, v'', l) => (r, v'', CreateFolder p :: l)
          end
      | None => (Thrown, v, [CreateFolder p])
      end
  end.
Proof.
  cbn [ensurePrefixes]. unfold bind, ask, call, ret.
  destruct (getFolderByPath v p).
  - destruct (ensurePrefixes rest v) as [[r v'] l]. reflexivity.
  - destruct (createFolder v p) as [v'|]; [|reflexivity].
    destruct (ensurePrefixes rest v') as [[r v''] l]. reflexivity.
Qed.

(** A second pass over paths that all name a folder calls nothing. *)
Lemma ensurePrefixes_present paths v :
  Forall (fun p => getFolderByPath v p <> None) paths ->
  ensurePrefixes paths v = (Returned tt, v, []).
Proof.
  induction 1 as [|p rest Hp _ IH]; [reflexivity|].
  rewrite ensurePrefixes_cons. destruct (getFolderByPath v p); [exact IH|congruence].
Qed.

Context {laws : VaultLaws host}.

(** A pass that returns has called [createFolder] for some of the paths, in
    their order, each without a folder when the pass began; afterwards
    every path names a folder, and the folders and files of before are
    still there. *)
Lemma ensurePrefixes_returned paths v v1 log :
  ensurePrefixes paths v = (Returned tt, v1, log) ->
  (exists created,
      log = map CreateFolder created
      /\ subsequence created paths
      /\ Forall (fun p => getFolderByPath v p = None) created)
  /\ Forall (fun p => getFolderByPath v1 p <> None) paths
  /\ (forall q, getFolderByPath v q <> None -> getFolderByPath v1 q <> None)
  /\ (forall q, getFileByPath v1 q = getFileByPath v q)
  /\ (forall f, read v1 f = read v f).
Proof.
  revert v v1 log. induction paths as [|p rest IH]; intros v v1 log Hrun.
  - injection Hrun as <- <-.
    split; [exists []; repeat split; constructor|].
    split; [constructor|]. split; [auto|]. split; reflexivity.
  - rewrite ensurePrefixes_cons in Hrun.
    destruct (getFolderByPath v p) as [obj|] eqn:Hp.
    + destruct (IH _ _ _ Hrun) as ((created & Hlog & Hsub & Habs) & Hall & Hkeep & Hfiles).
      split; [exists created; repeat split; [exact Hlog|constructor; exact Hsub|exact Habs]|].
      split; [|split; assumption].
      constructor; [apply Hkeep; congruence|exact Hall].
    + destruct (createFolder v p) as [v'|] eqn:Hc; [|discriminate Hrun].
      destruct (ensurePrefixes rest v') as [[r v''] l] eqn:Hrest.
      injection Hrun as -> -> <-.
      destruct (IH _ _ _ Hrest) as ((created & Hlog & Hsub & Habs) & Hall & Hkeep & Hf & Hr).
      destruct (createFolder_keeps_files _ _ _ Hc) as [Hf' Hr'].
      split; [exists (p :: created); split; [simpl; rewrite Hlog; reflexivity|]; split;
              [constructor; exact Hsub|]|].
      * constructor; [exact Hp|].
        eapply Forall_impl; [|exact Habs]. intros q Hq.
        destruct (getFolderByPath v q) eqn:E; [|reflexivity].
        exfalso. apply (createFolder_keeps_folders _ _ _ q Hc); [congruence|exact Hq].
      * split; [constructor; [apply Hkeep, (createFolder_found _ _ _ Hc)|exact Hall]|].
        split; [intros q Hq; apply Hkeep, (createFolder_keeps_folders _ _ _ q Hc), Hq|].
        split; [intros q; rewrite Hf; apply Hf'|intros f; rewrite Hr; apply Hr'].
Qed.

End FolderChainFacts.

Lemma memHost_laws : VaultLaws memHost.
Proof.
  split.
  - intros v p v'. simpl.
    destruct (existsb (String.eqb p) (mv_folders v)); [discriminate|].
    intros H. injection H as <-. simpl. rewrite String.eqb_refl. discriminate.
  - intros v p v' q. simpl.
    destruct (existsb (String.eqb p) (mv_folders v)); [discriminate|].
    intros H. injection H as <-. simpl.
    destruct (existsb (String.eqb q) (mv_folders v)); [|congruence].
    rewrite orb_true_r. discriminate.
  - intros v p v'. simpl.
    destruct (existsb (String.eqb p) (mv_folders v)); [discriminate|].
    intros H. injection H as <-. split; reflexivity.
Qed.

Section EnsureFolderExists.

Context {host : VaultHost}.

Lemma ensureFolderExists_loop_emits parts currentPath :
  emits isCreateFolder (ensureFolderExists_loop parts currentPath).
Proof.
  revert currentPath. induction parts as [|part rest IH]; intros currentPath.
  - apply emits_ret.
  - cbn [ensureFolderExists_loop].
    apply emits_bind; [apply emits_ask|]. intros present.
    apply emits_bind; [|intros _; apply IH].
    destruct present; [apply emits_ret|apply emits_call; reflexivity].
Qed.

(** [ensureFolderExists] calls nothing but [createFolder]. *)
Lemma ensureFolderExists_emits path : emits isCreateFolder (ensureFolderExists path).
Proof.
  unfold ensureFolderExists.
  destruct (negb (JS.truthy path)); [apply emits_ret|apply ensureFolderExists_loop_emits].
Qed.

Context {laws : VaultLaws host}.

(** On a destination folder path that is not empty [ensureFolderExists] is
    the pass over its prefix paths. *)
Lemma ensureFolderExists_destination settings v :
  resolvedFolderPath settings <> "" ->
  ensureFolderExists (resolvedFolderPath settings) v
  = ensurePrefixes (prefix_paths (resolvedFolderPath settings)) v.
Proof.
  intros Hne. apply ensureFolderExists_prefixes; [exact Hne|].
  apply resolvedFolderPath_first.
Qed.

(** C8: for every destination folder path that is not empty,
    [ensureFolderExists] goes through the prefix paths of the path (its
    segments between slashes, joined up to the first, the second, ...) from
    left to right and calls [createFolder] for a prefix path only when no
    folder has it; a run that returns has created, in that order, prefix
    paths that had no folder before the run, every prefix path has a folder
    after it, and a second run on the same path calls nothing and changes
    nothing. *)
Theorem C8_ensureFolderExists_idempotent settings v v1 log :
  resolvedFolderPath settings <> "" ->
  ensureFolderExists (resolvedFolderPath settings) v = (Returned tt, v1, log) ->
  (forall v0, ensureFolderExists (resolvedFolderPath settings) v0
              = ensurePrefixes (prefix_paths (resolvedFolderPath settings)) v0)
  /\ (exists created,
         log = map CreateFolder created
         /\ subsequence created (prefix_paths (resolvedFolderPath settings))
         /\ Forall (fun p => getFolderByPath v p = None) created)
  /\ Forall (fun p => getFolderByPath v1 p <> None)
        (prefix_paths (resolvedFolderPath settings))
  /\ ensureFolderExists (resolvedFolderPath settings) v1 = (Returned tt, v1, []).
Proof.
  intros Hne Hrun.
  rewrite (ensureFolderExists_destination settings v Hne) in Hrun.
  destruct (ensurePrefixes_returned _ _ _ _ Hrun) as (Hcreated & Hall & _).
  split; [intros v0; apply ensureFolderExists_destination, Hne|].
  split; [exact Hcreated|]. split; [exact Hall|].
  rewrite (ensureFolderExists_destination settings v1 Hne).
  apply ensurePrefixes_present, Hall.
Qed.

(** A run of [ensureFolderExists] on a destination folder path that
    returns leaves the files and their contents as they were. *)
Lemma ensureFolderExists_keeps_files settings v v1 log :
  ensureFolderExists (resolvedFolderPath settings) v = (Returned tt, v1, log) ->
  (forall q, getFileByPath v1 q = getFileByPath v q)
  /\ (forall f, read v1 f = read v f).
Proof.
  intros Hrun.
  destruct (resolvedFolderPath settings) as [|c s] eqn:E.
  - injection Hrun as <- _. split; reflexivity.
  - rewrite <- E in Hrun.
    rewrite ensureFolderExists_destination in Hrun by (rewrite E; discriminate).
    destruct (ensurePrefixes_returned _ _ _ _ Hrun) as (_ & _ & _ & Hf & Hr).
    split; assumption.
Qed.

End EnsureFolderExists.

(** Scenario E: the folder path [a/b] in a vault without a folder. *)
Lemma C8_ensureFolderExists_idempotent_witness :
  prefix_paths (resolvedFolderPath recursiveSettings) = ["a"; "a/b"]
  /\ ensureFolderExists (host := memHost) (resolvedFolderPath recursiveSettings) scenarioC
     = (Returned tt,
        mkMemVault (mv_root scenarioC) ["a/b"; "a"] (mv_data scenarioC),
        [CreateFolder "a"; CreateFolder "a/b"])
  /\ ensureFolderExists (host := memHost) (resolvedFolderPath recursiveSettings)
       (mkMemVault (mv_root scenarioC) ["a/b"; "a"] (mv_data scenarioC))
     = (Returned tt, mkMemVault (mv_root scenarioC) ["a/b"; "a"] (mv_data scenarioC), []).
Proof.
  split; [reflexivity|]. split; [reflexivity|].
  refine (proj2 (proj2 (proj2
    (C8_ensureFolderExists_idempotent (host := memHost) (laws := memHost_laws)
       recursiveSettings scenarioC
       (mkMemVault (mv_root scenarioC) ["a/b"; "a"] (mv_data scenarioC))
       [CreateFolder "a"; CreateFolder "a/b"] _ eq_refl)))).
  discriminate.
Defined.

(** ** [mergeMarkdownFiles] *)

Section Merge.

Context {host : VaultHost}.
Variable minimatch : string -> string -> bool.
Variable localeCompare : string -> string -> Z.
Variable settings : MergePluginSettings.

#[local] Abbreviation merge := (mergeMarkdownFiles minimatch localeCompare settings).
#[local] Abbreviation tail := (collectAndWrite minimatch localeCompare settings).
#[local] Abbreviation collect v folder now :=
  (collectMarkdownFiles minimatch localeCompare settings (subtree v folder)
     (resolvedOutputPath settings now) (parseExcludedPatterns settings)).

(** With the source folder found and the output folder ensured, the method
    goes on with the collection in the vault [ensureFolderExists] left. *)
Lemma mergeMarkdownFiles_ensured now v folder v1 log1 :
  sourceFolder settings v = Some folder ->
  ensureFolderExists (resolvedFolderPath settings) v = (Returned tt, v1, log1) ->
  merge now v =
  match tail folder (resolvedOutputPath settings now) v1 with
  | (r, v2, rest) => (r, v2, (log1 ++ rest)%list)
  end.
Proof.
  intros Hsrc Hens. unfold mergeMarkdownFiles, bind, tryCatch, ask, ret.
  rewrite Hsrc, Hens. cbn [negb].
  destruct (tail folder (resolvedOutputPath settings now) v1) as [[r v2] rest].
  rewrite app_nil_r. reflexivity.
Qed.

(** Without a file collected the rest of the method is the notice. *)
Lemma collectAndWrite_nothing now v folder :
  collect v folder now = [] ->
  tail folder (resolvedOutputPath settings now) v
  = (Returned tt, v, [Notice "No markdown files found to merge."]).
Proof.
  unfold collectAndWrite, bind, ask. intros ->. reflexivity.
Qed.

Lemma read_loop_emits P files mergedContent :
  (forall f, P (Read f) = true) -> emits P (read_loop files mergedContent).
Proof.
  intros HP. revert mergedContent.
  induction files as [|file rest IH]; intros mergedContent.
  - apply emits_ret.
  - cbn [read_loop]. apply emits_bind; [|intros content; apply IH].
    intros v. destruct (read v file); simpl; (constructor; [apply HP|constructor]).
Qed.

(** After the output folder the method creates no folder. *)
Lemma collectAndWrite_emits folder outputPath :
  emits (fun e => negb (isCreateFolder e)) (tail folder outputPath).
Proof.
  unfold collectAndWrite.
  apply emits_bind; [apply emits_ask|]. intros files.
  destruct (List.length files =? 0); [apply emits_emit; reflexivity|].
  apply emits_bind; [apply read_loop_emits; reflexivity|]. intros mergedContent.
  apply emits_tryCatch.
  - apply emits_bind; [apply emits_ask|]. intros existingFile.
    apply emits_bind; [|intros _; apply emits_emit; reflexivity].
    destruct existingFile; apply emits_call; reflexivity.
  - apply emits_bind; [|intros _]; apply emits_emit; reflexivity.
Qed.

Context {laws : VaultLaws host}.

(** C5: for every invocation that reaches the collection (the source folder
    is found and the output folder ensured) and collects no file, the
    method returns after the notice that there is nothing to merge; it has
    called neither [create] nor [modify], only [createFolder] before the
    notice; and every file of the vault, the destination file among them,
    is found as before with the content it had. *)
Theorem C5_nothing_to_merge now v folder v1 log1 :
  sourceFolder settings v = Some folder ->
  ensureFolderExists (resolvedFolderPath settings) v = (Returned tt, v1, log1) ->
  collect v1 folder now = [] ->
  merge now v
  = (Returned tt, v1, (log1 ++ [Notice "No markdown files found to merge."])%list)
  /\ Forall (fun e => isFileWrite e = false)
       (log1 ++ [Notice "No markdown files found to merge."])%list
  /\ Forall (fun e => isCreateFolder e = true) log1
  /\ (forall q, getFileByPath v1 q = getFileByPath v q)
  /\ (forall f, read v1 f = read v f).
Proof.
  intros Hsrc Hens Hnone.
  assert (Hlog : Forall (fun e => isCreateFolder e = true) log1).
  { pose proof (ensureFolderExists_emits (resolvedFolderPath settings) v) as H.
    rewrite Hens in H. exact H. }
  split.
  { rewrite (mergeMarkdownFiles_ensured now v folder v1 log1 Hsrc Hens).
    rewrite (collectAndWrite_nothing now v1 folder Hnone). reflexivity. }
  split.
  { apply Forall_app. split; [|constructor; [reflexivity|constructor]].
    eapply Forall_impl; [|exact Hlog]. intros [] He; simpl in *; congruence. }
  split; [exact Hlog|].
  exact (ensureFolderExists_keeps_files settings v v1 log1 Hens).
Qed.

(** C10: for every invocation with the source folder found and the output
    folder ensured, the calls of [createFolder] come first and the
    collection reads the vault they leave: the run is the run of
    [ensureFolderExists] followed by the rest of the method, which creates
    no folder; when the folder path is not empty every prefix path of it
    has a folder by then; and when no file is collected the invocation
    ends with the notice in that vault, the folders made and no file
    written. *)
Theorem C10_folders_before_collection now v folder v1 log1 :
  sourceFolder settings v = Some folder ->
  ensureFolderExists (resolvedFolderPath settings) v = (Returned tt, v1, log1) ->
  merge now v
  = match tail folder (resolvedOutputPath settings now) v1 with
    | (r, v2, rest) => (r, v2, (log1 ++ rest)%list)
    end
  /\ Forall (fun e => isCreateFolder e = true) log1
  /\ Forall (fun e => isCreateFolder e = false)
       (snd (tail folder (resolvedOutputPath settings now) v1))
  /\ (resolvedFolderPath settings <> "" ->
      Forall (fun p => getFolderByPath v1 p <> None)
        (prefix_paths (resolvedFolderPath settings)))
  /\ (collect v1 folder now = [] ->
      merge now v
      = (Returned tt, v1, (log1 ++ [Notice "No markdown files found to merge."])%list)).
Proof.
  intros Hsrc Hens.
  split; [exact (mergeMarkdownFiles_ensured now v folder v1 log1 Hsrc Hens)|].
  split.
  { pose proof (ensureFolderExists_emits (resolvedFolderPath settings) v) as H.
    rewrite Hens in H. exact H. }
  split.
  { eapply Forall_impl;
      [|exact (collectAndWrite_emits folder (resolvedOutputPath settings now) v1)].
    intros e He. apply negb_true_iff, He. }
  split.
  { intros Hne.
    rewrite (ensureFolderExists_destination settings v Hne) in Hens.
    exact (proj1 (proj2 (ensurePrefixes_returned _ _ _ _ Hens))). }
  intros Hnone.
  rewrite (mergeMarkdownFiles_ensured now v folder v1 log1 Hsrc Hens).
  rewrite (collectAndWrite_nothing now v1 folder Hnone). reflexivity.
Qed.

End Merge.

(** Nothing to merge but the merged file of an earlier run, which is the
    destination and so is not collected: it keeps its content. *)
Lemma C5_nothing_to_merge_witness :
  mergeMarkdownFiles (host := memHost) subMatch codeUnitCompare recursiveSettings
    newYear2024 scenarioEarlier
  = (Returned tt, scenarioEarlier, [Notice "No markdown files found to merge."])
  /\ read (VaultHost := memHost) scenarioEarlier (mdFile "a/b/" "out-2024-01-01")
     = Some "earlier".
Proof.
  destruct (C5_nothing_to_merge (host := memHost) (laws := memHost_laws)
              subMatch codeUnitCompare
              recursiveSettings newYear2024 scenarioEarlier None scenarioEarlier []
              eq_refl eq_refl eq_refl)
    as (Hrun & _ & _ & _ & Hread).
  split; [exact Hrun|reflexivity].
Defined.

(** Scenario C with the output folder [a/b]: the folders are made, then the
    notice. *)
Lemma C10_folders_before_collection_witness :
  Forall (fun p => getFolderByPath (VaultHost := memHost)
                     (mkMemVault (mv_root scenarioC) ["a/b"; "a"] (mv_data scenarioC)) p
                   <> None) ["a"; "a/b"]
  /\ mergeMarkdownFiles (host := memHost) subMatch codeUnitCompare recursiveSettings
       newYear2024 scenarioC
     = (Returned tt,
        mkMemVault (mv_root scenarioC) ["a/b"; "a"] (mv_data scenarioC),
        [CreateFolder "a"; CreateFolder "a/b"; Notice "No markdown files found to merge."]).
Proof.
  destruct (C10_folders_before_collection (host := memHost) (laws := memHost_laws)
              subMatch codeUnitCompare
              recursiveSettings newYear2024 scenarioC None
              (mkMemVault (mv_root scenarioC) ["a/b"; "a"] (mv_data scenarioC))
              [CreateFolder "a"; CreateFolder "a/b"] eq_refl eq_refl)
    as (_ & _ & _ & Hfolders & Hnone).
  split.
  - apply Hfolders. discriminate.
  - apply Hnone. reflexivity.
Defined.

(** A run from the notes [a.md] and [b.md] to the merged file. *)
Example mergeMarkdownFiles_notes :
  mergeMarkdownFiles (host := memHost) noMatch codeUnitCompare DEFAULT_SETTINGS
    newYear2024 scenarioNotes
  = (Returned tt,
     mkMemVault (mv_root scenarioNotes) ["merged"]
       [("b.md", "hello"); ("a.md", " world ");
        ("merged/merged-output-2024-01-01.md",
         "# a" ++ newline ++ newline ++ "world" ++ newline ++ newline
         ++ "# b" ++ newline ++ newline ++ "hello" ++ newline ++ newline)],
     [CreateFolder "merged"; Read (mdFile "" "a"); Read (mdFile "" "b");
      Create "merged/merged-output-2024-01-01.md"
        ("# a" ++ newline ++ newline ++ "world" ++ newline ++ newline
         ++ "# b" ++ newline ++ newline ++ "hello" ++ newline ++ newline);
      Notice "Merged 2 files into merged/merged-output-2024-01-01.md"]).
Proof. reflexivity. Qed.

(** * Further properties *)

(** ** Trimming and the settings tab *)

Lemma append_empty_r s : s ++ "" = s.
Proof. induction s as [|c s IH]; simpl; [reflexivity|rewrite IH; reflexivity]. Qed.

(** Stripping what is already stripped changes nothing. *)
Lemma strip_idempotent p s :
  JS.dropEnd p (JS.dropStart p (JS.dropEnd p (JS.dropStart p s)))
  = JS.dropEnd p (JS.dropStart p s).
Proof.
  symmetry. apply stripped_unique.
  destruct (dropEnd_dropStart_stripped p s) as (_ & Hfirst & Hlast).
  split; [|split; assumption].
  exists "", "". simpl. rewrite append_empty_r. repeat split.
Qed.

Lemma trim_idempotent s : JS.trim (JS.trim s) = JS.trim s.
Proof. apply strip_idempotent. Qed.

(** X1: a text typed into the settings tab is stored trimmed: the stored
    source folder, output folder and file name are left as they are by a
    further [trim], so blanks typed around the output folder and the file
    name do not change the destination path the merge resolves. *)
Theorem X1_settings_tab_stores_trimmed (value folderValue fileValue : string)
    (s : MergePluginSettings) (now : Date) :
  JS.trim (folderName (onChangeFolderName value s)) = folderName (onChangeFolderName value s)
  /\ JS.trim (outputFolder (onChangeOutputFolder value s))
     = outputFolder (onChangeOutputFolder value s)
  /\ JS.trim (outputFileName (onChangeOutputFileName value s))
     = outputFileName (onChangeOutputFileName value s)
  /\ resolvedOutputPath (onChangeOutputFolder folderValue (onChangeOutputFileName fileValue s)) now
     = resolvedOutputPath
         {| folderName := folderName s; outputFolder := folderValue;
            outputFileName := fileValue; includeHidden := includeHidden s;
            excludedFiles := excludedFiles s; recursive := recursive s;
            showRibbonIcon := showRibbonIcon s |} now.
Proof.
  split; [apply trim_idempotent|]. split; [apply trim_idempotent|].
  split; [apply trim_idempotent|].
  unfold resolvedOutputPath, resolvedFileName, resolvedFolderPath. simpl.
  rewrite !trim_idempotent. reflexivity.
Qed.

(** ** The pieces of a split *)

Lemma split_nonempty sep s : JS.split sep s <> [].
Proof.
  destruct s as [|c s]; simpl; [discriminate|].
  destruct (Ascii.eqb c sep); [discriminate|].
  destruct (JS.split sep s); discriminate.
Qed.

(** Joining the pieces with the separator gives the string back. *)
Lemma join_split sep s : JS.join (String sep "") (JS.split sep s) = s.
Proof.
  induction s as [|c s IH]; [reflexivity|]. cbn [JS.split].
  pose proof (split_nonempty sep s) as Hne.
  destruct (Ascii.eqb_spec c sep) as [->|Hc].
  - destruct (JS.split sep s) as [|p ps]; [congruence|].
    cbn [JS.join]. simpl. rewrite <- IH. reflexivity.
  - destruct (JS.split sep s) as [|p ps]; [congruence|].
    rewrite <- IH. destruct ps; reflexivity.
Qed.

(** No piece holds the separator, and a property of all the characters of
    the string holds of all the characters of each piece. *)
Lemma split_pieces q sep s :
  all q s = true ->
  Forall (fun piece => all q piece = true
                       /\ all (fun c => negb (Ascii.eqb c sep)) piece = true)
    (JS.split sep s).
Proof.
  induction s as [|c s IH]; simpl.
  - intros _. constructor; [split; reflexivity|constructor].
  - intros H. apply andb_true_iff in H. destruct H as [Hc Hs].
    specialize (IH Hs).
    destruct (Ascii.eqb c sep) eqn:E.
    + constructor; [split; reflexivity|exact IH].
    + destruct (JS.split sep s) as [|p ps]; simpl.
      * constructor; [|constructor]. simpl. rewrite Hc, E. split; reflexivity.
      * inversion IH as [|? ? [Hp1 Hp2] Hps]; subst.
        constructor; [|exact Hps]. simpl. rewrite Hc, E, Hp1, Hp2. split; reflexivity.
Qed.

Lemma all_true s : all (fun _ => true) s = true.
Proof. induction s as [|c s IH]; simpl; [reflexivity|exact IH]. Qed.


(** What holds of all the characters of a string holds of all the
    characters of its trimmed form. *)
Lemma all_trim q s : all q s = true -> all q (JS.trim s) = true.
Proof.
  intros H.
  destruct (dropEnd_dropStart_stripped JS.isWhiteSpace s) as ((l & r & Hs & _) & _).
  rewrite Hs in H. rewrite !all_append in H.
  apply andb_true_iff in H. destruct H as [_ H].
  apply andb_true_iff in H. destruct H as [H _]. exact H.
Qed.

Lemma trim_blank s : all JS.isWhiteSpace s = true -> JS.trim s = "".
Proof.
  intros H. unfold JS.trim. rewrite (dropStart_all _ _ H). reflexivity.
Qed.

(** ** The exclusion patterns (lines 100-103) *)

(** X2: the patterns parsed from the setting are never empty, are trimmed
    and hold no comma; a setting made of blanks and commas only gives no
    pattern at all. *)
Theorem X2_parseExcludedPatterns (s : MergePluginSettings) :
  Forall (fun pattern =>
            pattern <> ""
            /\ JS.trim pattern = pattern
            /\ all (fun c => negb (isComma c)) pattern = true)
    (parseExcludedPatterns s)
  /\ (all (fun c => JS.isWhiteSpace c || isComma c) (excludedFiles s) = true ->
      parseExcludedPatterns s = []).
Proof.
  unfold parseExcludedPatterns. split.
  - apply Forall_forall. intros pattern Hin.
    apply filter_In in Hin. destruct Hin as [Hin Ht].
    apply in_map_iff in Hin. destruct Hin as (piece & <- & Hpiece).
    split; [destruct (JS.trim piece); [discriminate Ht|discriminate]|].
    split; [apply trim_idempotent|].
    pose proof (split_pieces (fun _ => true) ","%char (excludedFiles s)
                  (all_true _)) as Hall.
    rewrite Forall_forall in Hall. destruct (Hall piece Hpiece) as [_ Hc].
    apply all_trim. exact Hc.
  - intros Hblank.
    pose proof (split_pieces _ ","%char (excludedFiles s) Hblank) as Hall.
    induction Hall as [|piece pieces [Hq Hc] _ IH]; [reflexivity|].
    simpl. rewrite trim_blank; [exact IH|].
    clear IH. induction piece as [|c piece IHp]; [reflexivity|].
    simpl in *. apply andb_true_iff in Hq, Hc.
    destruct Hq as [Hq1 Hq2]. destruct Hc as [Hc1 Hc2].
    rewrite (IHp Hq2 Hc2), andb_true_r.
    unfold isComma in Hq1. apply negb_true_iff in Hc1. rewrite Hc1, orb_false_r in Hq1.
    exact Hq1.
Qed.

Lemma X2_parseExcludedPatterns_witness :
  parseExcludedPatterns (onChangeExcludedFiles " ,, ," DEFAULT_SETTINGS) = [].
Proof.
  apply (proj2 (X2_parseExcludedPatterns (onChangeExcludedFiles " ,, ," DEFAULT_SETTINGS))).
  reflexivity.
Defined.

(** ** The destination path: what every resolution gives *)

Lemma ends_with_md_append a b : ends_with_md b -> ends_with_md (a ++ b).
Proof.
  intros (stem & m & d & -> & Hm & Hd).
  exists (a ++ stem), m, d. rewrite append_assoc. repeat split; assumption.
Qed.

(** X3: whatever the settings and the date, the resolved file name, and
    with it the destination path, ends with [.md] in some mix of cases: the
    merged file is always a Markdown file, and a name that came with [.MD]
    is not given a second extension. *)
Theorem X3_destination_is_markdown (s : MergePluginSettings) (now : Date) :
  ends_with_md (resolvedFileName s now)
  /\ ends_with_md (resolvedOutputPath s now)
  /\ (ends_with_md (JS.replace "{date}" (today now) (JS.trim (outputFileName s))) ->
      resolvedFileName s now
      = JS.replace "{date}" (today now) (JS.trim (outputFileName s))).
Proof.
  assert (Hname : ends_with_md (resolvedFileName s now)).
  { unfold resolvedFileName.
    destruct (JS.endsWith _ ".md") eqn:E; simpl.
    - apply endsWith_md_iff, E.
    - apply ends_with_md_append. exists "", "m"%char, "d"%char. repeat split; left; reflexivity. }
  split; [exact Hname|]. split.
  - unfold resolvedOutputPath. destruct (JS.truthy _); [|exact Hname].
    apply ends_with_md_append, (ends_with_md_append "/"), Hname.
  - intros H. apply endsWith_md_iff in H. unfold resolvedFileName. rewrite H. reflexivity.
Qed.

Lemma strip_empty_iff p s :
  JS.dropEnd p (JS.dropStart p s) = "" <-> all p s = true.
Proof.
  split.
  - intros H.
    destruct (dropEnd_dropStart_stripped p s) as ((l & r & Hs & Hl & Hr) & _).
    rewrite H in Hs. simpl in Hs. rewrite Hs, all_append, Hl, Hr. reflexivity.
  - intros H. rewrite (dropStart_all p s H). reflexivity.
Qed.

(** X4: the folder part of the destination never starts and never ends
    with a slash; it is empty exactly when the trimmed output folder holds
    nothing but slashes (or nothing), and then the destination is the file
    name alone, in the root of the vault. *)
Theorem X4_destination_folder (s : MergePluginSettings) (now : Date) :
  (forall c, first (resolvedFolderPath s) = Some c -> c <> "/"%char)
  /\ (forall c, last (resolvedFolderPath s) = Some c -> c <> "/"%char)
  /\ (resolvedFolderPath s = ""
      <-> all JS.isSlash (JS.trim (outputFolder s)) = true)
  /\ (resolvedFolderPath s = "" -> resolvedOutputPath s now = resolvedFileName s now)
  /\ (resolvedFolderPath s <> "" ->
      resolvedOutputPath s now = resolvedFolderPath s ++ "/" ++ resolvedFileName s now).
Proof.
  destruct (dropEnd_dropStart_stripped JS.isSlash (JS.trim (outputFolder s)))
    as (_ & Hfirst & Hlast).
  split; [intros c Hc ->; discriminate (Hfirst _ Hc)|].
  split; [intros c Hc ->; discriminate (Hlast _ Hc)|].
  split; [apply strip_empty_iff|].
  unfold resolvedOutputPath. split.
  - intros ->. reflexivity.
  - intros Hne. destruct (resolvedFolderPath s); [congruence|reflexivity].
Qed.

Lemma X4_destination_folder_witness :
  resolvedOutputPath (onChangeOutputFolder " // " recursiveSettings) newYear2024
  = "out-2024-01-01.md".
Proof.
  rewrite (proj1 (proj2 (proj2 (proj2
             (X4_destination_folder (onChangeOutputFolder " // " recursiveSettings)
                newYear2024)))) eq_refl).
  reflexivity.
Defined.

Lemma replace_absent pat rep s :
  (forall pre post, s <> pre ++ pat ++ post) -> JS.replace pat rep s = s.
Proof.
  intros Hnone.
  destruct (replace_substituted pat rep s) as [(pre & post & Hs & _)|[_ Hr]].
  - exfalso. exact (Hnone pre post Hs).
  - exact Hr.
Qed.

(** X5: a file name template without [{date}] resolves to the same
    destination whatever the date: every run of that configuration writes
    to one and the same file. *)
Theorem X5_template_without_date (s : MergePluginSettings) (now now' : Date) :
  (forall pre post, JS.trim (outputFileName s) <> pre ++ "{date}" ++ post) ->
  resolvedOutputPath s now = resolvedOutputPath s now'.
Proof.
  intros Hnone. unfold resolvedOutputPath, resolvedFileName.
  rewrite !(replace_absent _ _ _ Hnone). reflexivity.
Qed.

Lemma X5_template_without_date_witness :
  resolvedOutputPath hiddenSettings newYear2024
  = resolvedOutputPath hiddenSettings (mkDate 1999 12 31 23 59 59 999).
Proof.
  apply X5_template_without_date.
  intros pre post H. apply (f_equal String.length) in H.
  rewrite !length_append in H. simpl in H. lia.
Defined.

(** ** The folders [ensureFolderExists] asks for *)

Lemma inits_prefix {A} (l pre : list A) :
  In pre (inits l) -> exists post, l = (pre ++ post)%list.
Proof.
  revert pre. induction l as [|x l IH]; intros pre; simpl; [contradiction|].
  intros [<-|H]; [exists l; reflexivity|].
  apply in_map_iff in H. destruct H as (pre' & <- & Hpre').
  destruct (IH pre' Hpre') as [post ->]. exists post. reflexivity.
Qed.

Lemma inits_whole {A} (l : list A) : l <> [] -> In l (inits l).
Proof.
  induction l as [|x l IH]; [congruence|]. intros _. simpl.
  destruct l as [|y l]; [left; reflexivity|].
  right. apply in_map, IH. discriminate.
Qed.

Lemma join_app sep pre post :
  pre <> [] ->
  JS.join sep (pre ++ post)
  = JS.join sep pre ++ match post with
                       | [] => ""
                       | _ => sep ++ JS.join sep post
                       end.
Proof.
  induction pre as [|x pre IH]; [congruence|]. intros _.
  destruct pre as [|y pre].
  - simpl. destruct post; [rewrite append_empty_r|]; reflexivity.
  - change ((x :: y :: pre) ++ post)%list with (x :: ((y :: pre) ++ post))%list.
    rewrite (join_cons sep x ((y :: pre) ++ post)) by discriminate.
    rewrite IH by discriminate.
    rewrite (join_cons sep x (y :: pre)) by discriminate.
    rewrite !append_assoc. reflexivity.
Qed.

(** A prefix path of a path is the path up to one of its slashes, or the
    whole path. *)
Lemma prefix_paths_prefix path p :
  In p (prefix_paths path) ->
  exists rest, path = p ++ rest /\ (rest = "" \/ first rest = Some "/"%char).
Proof.
  unfold prefix_paths. intros H.
  apply in_map_iff in H. destruct H as (pre & <- & Hpre).
  destruct (inits_prefix _ _ Hpre) as [post Hpost].
  pose proof (join_split "/"%char path) as Hjoin.
  rewrite Hpost, (join_app _ pre post (inits_nonempty _ _ Hpre)) in Hjoin.
  eexists. split; [symmetry; exact Hjoin|].
  destruct post; [left|right]; reflexivity.
Qed.

Lemma prefix_paths_whole path : In path (prefix_paths path).
Proof.
  unfold prefix_paths. apply in_map_iff.
  exists (JS.split "/"%char path). split; [apply join_split|].
  apply inits_whole, split_nonempty.
Qed.

Section FolderRequests.

Context {host : VaultHost}.

Lemma ensurePrefixes_events paths v :
  Forall (fun e => exists p, e = CreateFolder p /\ In p paths)
    (snd (ensurePrefixes paths v)).
Proof.
  revert v. induction paths as [|p rest IH]; intros v; [constructor|].
  rewrite ensurePrefixes_cons.
  assert (Hrest : forall v', Forall (fun e => exists q, e = CreateFolder q /\ In q (p :: rest))
                               (snd (ensurePrefixes rest v'))).
  { intros v'. eapply Forall_impl; [|exact (IH v')].
    intros e (q & -> & Hq). exists q. split; [reflexivity|right; exact Hq]. }
  destruct (getFolderByPath v p); [apply Hrest|].
  destruct (createFolder v p) as [v'|].
  - specialize (Hrest v'). destruct (ensurePrefixes rest v') as [[r v''] l]. simpl in *.
    constructor; [exists p; split; [reflexivity|left; reflexivity]|exact Hrest].
  - simpl. constructor; [exists p; split; [reflexivity|left; reflexivity]|constructor].
Qed.

(** X6: on a destination folder path that is not empty, every folder
    [ensureFolderExists] asks the vault to create, whether the run returns
    or rejects, is the path itself or the path up to one of its slashes:
    nothing is created outside the chain that leads to the destination
    folder. *)
Theorem X6_created_folders_lead_to_destination (s : MergePluginSettings) (v : Vault) :
  resolvedFolderPath s <> "" ->
  Forall (fun e => exists p rest,
              e = CreateFolder p
              /\ resolvedFolderPath s = p ++ rest
              /\ (rest = "" \/ first rest = Some "/"%char))
    (snd (ensureFolderExists (resolvedFolderPath s) v)).
Proof.
  intros Hne. rewrite (ensureFolderExists_destination s v Hne).
  eapply Forall_impl; [|apply ensurePrefixes_events].
  intros e (p & -> & Hp).
  destruct (prefix_paths_prefix _ _ Hp) as (rest & Hrest & Hsep).
  exists p, rest. repeat split; assumption.
Qed.

Lemma ensureFolderExists_loop_cons part rest currentPath v :
  ensureFolderExists_loop (part :: rest) currentPath v =
  let currentPath' :=
    if JS.truthy currentPath then currentPath ++ "/" ++ part else part in
  match getFolderByPath v currentPath' with
  | Some _ => ensureFolderExists_loop rest currentPath' v
  | None =>
      match createFolder v currentPath' with
      | Some v' =>
          match ensureFolderExists_loop rest currentPath' v' with
          | (r, v'', l) => (r, v'', CreateFolder currentPath' :: l)
          end
      | None => (Thrown, v, [CreateFolder currentPath'])
      end
  end.
Proof.
  cbn [ensureFolderExists_loop]. unfold bind, ask, call, ret. cbv zeta.
  set (cp := if JS.truthy currentPath then currentPath ++ "/" ++ part else part).
  destruct (getFolderByPath v cp).
  - destruct (ensureFolderExists_loop rest cp v) as [[r v'] l]. reflexivity.
  - destruct (createFolder v cp) as [v'|]; [|reflexivity].
    destruct (ensureFolderExists_loop rest cp v') as [[r v''] l]. reflexivity.
Qed.

Lemma ensureFolderExists_loop_thrown parts currentPath v v1 log :
  ensureFolderExists_loop parts currentPath v = (Thrown, v1, log) ->
  exists created p,
    log = map CreateFolder (created ++ [p])
    /\ getFolderByPath v1 p = None /\ createFolder v1 p = None.
Proof.
  revert currentPath v log. induction parts as [|part rest IH]; intros currentPath v log.
  - discriminate.
  - rewrite ensureFolderExists_loop_cons. cbv zeta.
    set (cp := if JS.truthy currentPath then currentPath ++ "/" ++ part else part).
    destruct (getFolderByPath v cp) eqn:Hg; [apply IH|].
    destruct (createFolder v cp) as [v'|] eqn:Hc.
    + destruct (ensureFolderExists_loop rest cp v') as [[r v''] l] eqn:Hrest.
      intros H. injection H as -> -> <-.
      destruct (IH _ _ _ Hrest) as (created & p & -> & Hp).
      exists (cp :: created), p. split; [reflexivity|exact Hp].
    + intros H. injection H as <- <-.
      exists [], cp. repeat split; assumption.
Qed.

(** X7: [ensureFolderExists] rejects only through a call of [createFolder]
    that rejects, and stops there: the rejected request is the last thing
    it did, for a path that had no folder, and the segments after it are
    not looked at. *)
Theorem X7_ensureFolderExists_stops_at_rejection (path : string) (v v1 : Vault)
    (log : list Event) :
  ensureFolderExists path v = (Thrown, v1, log) ->
  exists created p,
    log = map CreateFolder (created ++ [p])
    /\ getFolderByPath v1 p = None /\ createFolder v1 p = None.
Proof.
  unfold ensureFolderExists.
  destruct (negb (JS.truthy path)); [discriminate|].
  apply ensureFolderExists_loop_thrown.
Qed.

Context {laws : VaultLaws host}.

(** X8: after a run of [ensureFolderExists] on a destination folder path
    that returns, the destination folder itself is there, and every folder
    that was there before still is. *)
Theorem X8_destination_folder_exists (s : MergePluginSettings) (v v1 : Vault)
    (log : list Event) :
  resolvedFolderPath s <> "" ->
  ensureFolderExists (resolvedFolderPath s) v = (Returned tt, v1, log) ->
  getFolderByPath v1 (resolvedFolderPath s) <> None
  /\ (forall q, getFolderByPath v q <> None -> getFolderByPath v1 q <> None).
Proof.
  intros Hne Hrun. rewrite (ensureFolderExists_destination s v Hne) in Hrun.
  destruct (ensurePrefixes_returned _ _ _ _ Hrun) as (_ & Hall & Hkeep & _).
  split; [|exact Hkeep].
  rewrite Forall_forall in Hall. apply Hall, prefix_paths_whole.
Qed.

End FolderRequests.

Lemma X6_created_folders_lead_to_destination_witness :
  Forall (fun e => exists p rest,
              e = CreateFolder p /\ "a/b" = p ++ rest
              /\ (rest = "" \/ first rest = Some "/"%char))
    [CreateFolder "a"; CreateFolder "a/b"].
Proof.
  refine (X6_created_folders_lead_to_destination (host := memHost)
            recursiveSettings scenarioC _).
  discriminate.
Defined.

Lemma X8_destination_folder_exists_witness :
  getFolderByPath (VaultHost := memHost)
    (mkMemVault (mv_root scenarioC) ["a/b"; "a"] (mv_data scenarioC)) "a/b" <> None.
Proof.
  refine (proj1 (X8_destination_folder_exists (host := memHost) (laws := memHost_laws)
                   recursiveSettings scenarioC
                   (mkMemVault (mv_root scenarioC) ["a/b"; "a"] (mv_data scenarioC))
                   [CreateFolder "a"; CreateFolder "a/b"] _ eq_refl)).
  discriminate.
Defined.

(** ** What [collectMarkdownFiles] returns under other settings *)

Lemma visited_recursive s s' folder f :
  (recursive s = true -> recursive s' = true) ->
  visited s folder f -> visited s' folder f.
Proof.
  intros Hr. induction 1 as [d f Hc|d d' f Hrec Hc _ IH].
  - apply visited_child, Hc.
  - eapply visited_sub; [apply Hr, Hrec|exact Hc|exact IH].
Qed.

Lemma existsb_incl {A} (p : A -> bool) (l l' : list A) :
  (forall x, In x l' -> In x l) -> existsb p l = false -> existsb p l' = false.
Proof.
  intros Hincl H. destruct (existsb p l') eqn:E; [|reflexivity].
  apply existsb_exists in E. destruct E as (x & Hx & Hp).
  assert (existsb p l = true) as Ht by (apply existsb_exists; exists x; auto).
  congruence.
Qed.

(** X9: a more permissive configuration never loses a file: turning the
    recursive mode on, turning [includeHidden] on, or taking patterns away
    from the list leaves every file in the result that was there before. *)
Theorem X9_permissive_settings_keep_files minimatch localeCompare
    (s s' : MergePluginSettings) (folder : TFolder) (outputPath : string)
    (patterns patterns' : list string) (f : TFile) :
  (recursive s = true -> recursive s' = true) ->
  (includeHidden s = true -> includeHidden s' = true) ->
  (forall pattern, In pattern patterns' -> In pattern patterns) ->
  In f (collectMarkdownFiles minimatch localeCompare s folder outputPath patterns) ->
  In f (collectMarkdownFiles minimatch localeCompare s' folder outputPath patterns').
Proof.
  intros Hr Hh Hp Hin.
  apply collectMarkdownFiles_In in Hin. destruct Hin as [Hv Hsel].
  apply collectMarkdownFiles_In. split; [exact (visited_recursive s s' folder f Hr Hv)|].
  unfold selected in *.
  apply andb_true_iff in Hsel. destruct Hsel as [Hsel Hhid].
  apply andb_true_iff in Hsel. destruct Hsel as [Hsel Hpat].
  rewrite Hsel. simpl.
  apply negb_true_iff in Hpat. rewrite (existsb_incl _ _ _ Hp Hpat). simpl.
  destruct (includeHidden s) eqn:E; [rewrite (Hh eq_refl); reflexivity|].
  simpl in Hhid. rewrite Hhid. apply orb_true_r.
Qed.

(** Turning the recursive mode and [includeHidden] on in the settings tab
    and clearing the patterns keeps the note [a.md]. *)
Lemma X9_permissive_settings_keep_files_witness :
  In (mdFile "" "a")
    (collectMarkdownFiles subMatch codeUnitCompare
       (onChangeRecursive true (onChangeIncludeHidden true DEFAULT_SETTINGS))
       sampleTree "merged/out.md" []).
Proof.
  apply (X9_permissive_settings_keep_files subMatch codeUnitCompare
           DEFAULT_SETTINGS
           (onChangeRecursive true (onChangeIncludeHidden true DEFAULT_SETTINGS))
           sampleTree "merged/out.md" ["sub/*.md"] [] (mdFile "" "a")).
  - reflexivity.
  - reflexivity.
  - intros pattern [].
  - vm_compute. right. left. reflexivity.
Defined.

(** X10: every returned file has the extension [md], spelled exactly so:
    a file [NOTES.MD] or [notes.markdown] is never merged. *)
Theorem X10_only_md_extension minimatch localeCompare (s : MergePluginSettings)
    (folder : TFolder) (outputPath : string) (patterns : list string) :
  Forall (fun f => extension f = "md")
    (collectMarkdownFiles minimatch localeCompare s folder outputPath patterns).
Proof.
  apply Forall_forall. intros f Hf.
  apply collectMarkdownFiles_In in Hf. destruct Hf as [_ Hsel].
  unfold selected in Hsel.
  repeat (apply andb_prop in Hsel; destruct Hsel as [Hsel ?]).
  apply String.eqb_eq, Hsel.
Qed.

(** X11: the result is empty exactly when the traversal meets no file that
    the condition selects; in particular an empty folder, or a tree without
    a note, gives the empty sequence and no error. *)
Theorem X11_nothing_collected minimatch localeCompare (s : MergePluginSettings)
    (folder : TFolder) (outputPath : string) (patterns : list string) :
  collectMarkdownFiles minimatch localeCompare s folder outputPath patterns = []
  <-> (forall f, visited s folder f ->
                 selected minimatch s outputPath patterns f = false).
Proof.
  split.
  - intros Hnil f Hv.
    destruct (selected minimatch s outputPath patterns f) eqn:E; [|reflexivity].
    assert (In f (collectMarkdownFiles minimatch localeCompare s folder outputPath patterns))
      as Hin by (apply collectMarkdownFiles_In; split; assumption).
    rewrite Hnil in Hin. contradiction.
  - intros Hnone.
    destruct (collectMarkdownFiles minimatch localeCompare s folder outputPath patterns)
      as [|f files] eqn:E; [reflexivity|].
    assert (In f (collectMarkdownFiles minimatch localeCompare s folder outputPath patterns))
      as Hin by (rewrite E; left; reflexivity).
    apply collectMarkdownFiles_In in Hin. destruct Hin as [Hv Hsel].
    rewrite (Hnone f Hv) in Hsel. discriminate.
Qed.

(** ** The runs of [mergeMarkdownFiles] *)

Section RunFacts.

Context {host : VaultHost}.
Variable minimatch : string -> string -> bool.
Variable localeCompare : string -> string -> Z.
Variable settings : MergePluginSettings.

#[local] Abbreviation merge := (mergeMarkdownFiles minimatch localeCompare settings).
#[local] Abbreviation files_in now v folder :=
  (collected minimatch localeCompare settings now v folder).

(** The loop over the files: either every read answers, the merged text
    grows by the sections of the files in their order and the vault is as
    before; or the loop rejects at the first file whose read rejects. *)
Lemma read_loop_run files mergedContent v :
  (Forall (fun g => read v g <> None) files
   /\ read_loop files mergedContent v
      = (Returned (mergedContent ++ mergedContentOf v files), v, map Read files))
  \/ (exists before f after,
        files = (before ++ f :: after)%list
        /\ Forall (fun g => read v g <> None) before
        /\ read v f = None
        /\ read_loop files mergedContent v = (Thrown, v, map Read (before ++ [f]))).
Proof.
  revert mergedContent. induction files as [|file rest IH]; intros mergedContent.
  - left. split; [constructor|]. unfold mergedContentOf. simpl.
    rewrite append_empty_r. reflexivity.
  - cbn [read_loop]. unfold bind.
    destruct (read v file) as [c|] eqn:Hread.
    + destruct (IH (mergedContent ++ "# " ++ basename file ++ newline ++ newline
                      ++ JS.trim c ++ newline ++ newline))
        as [[Hall Hrun]|(before & f & after & -> & Hall & Hf & Hrun)]; rewrite Hrun.
      * left. split; [constructor; [congruence|exact Hall]|].
        change (mergedContentOf v (file :: rest))
          with (sectionOf (basename file) (contentAt v file) ++ mergedContentOf v rest).
        unfold contentAt. rewrite Hread. unfold sectionOf.
        rewrite !append_assoc. reflexivity.
      * right. exists (file :: before), f, after.
        split; [reflexivity|]. split; [constructor; [congruence|exact Hall]|].
        split; [exact Hf|reflexivity].
    + right. exists [], file, rest. repeat split; [constructor|exact Hread].
Qed.

Lemma mergeMarkdownFiles_source_missing now v :
  sourceFolder settings v = None ->
  merge now v = (Returned tt, v, [notFoundNotice settings]).
Proof.
  intros Hsrc. unfold mergeMarkdownFiles, bind, ask. rewrite Hsrc. reflexivity.
Qed.

Lemma mergeMarkdownFiles_folder_failed now v folder v1 log1 :
  sourceFolder settings v = Some folder ->
  ensureFolderExists (resolvedFolderPath settings) v = (Thrown, v1, log1) ->
  merge now v
  = (Returned tt, v1, (log1 ++ [ConsoleError; folderFailedNotice settings])%list).
Proof.
  intros Hsrc Hens. unfold mergeMarkdownFiles, bind, tryCatch, ask, ret, emit.
  rewrite Hsrc, Hens. cbn [negb app]. rewrite app_nil_r. reflexivity.
Qed.

(** The write of lines 120-131, after the reads. *)
Lemma collectAndWrite_run now v folder :
  files_in now v folder <> [] ->
  Forall (fun g => read v g <> None) (files_in now v folder) ->
  collectAndWrite minimatch localeCompare settings folder
    (resolvedOutputPath settings now) v
  = match getFileByPath v (resolvedOutputPath settings now) with
    | Some existing =>
        match modify v existing (mergedContentOf v (files_in now v folder)) with
        | Some v2 =>
            (Returned tt, v2,
             (map Read (files_in now v folder)
                ++ [Modify existing (mergedContentOf v (files_in now v folder));
                    mergedNotice settings now (files_in now v folder)])%list)
        | None =>
            (Returned tt, v,
             (map Read (files_in now v folder)
                ++ [Modify existing (mergedContentOf v (files_in now v folder));
                    ConsoleError; writeFailedNotice])%list)
        end
    | None =>
        match create v (resolvedOutputPath settings now)
                (mergedContentOf v (files_in now v folder)) with
        | Some v2 =>
            (Returned tt, v2,
             (map Read (files_in now v folder)
                ++ [Create (resolvedOutputPath settings now)
                      (mergedContentOf v (files_in now v folder));
                    mergedNotice settings now (files_in now v folder)])%list)
        | None =>
            (Returned tt, v,
             (map Read (files_in now v folder)
                ++ [Create (resolvedOutputPath settings now)
                      (mergedContentOf v (files_in now v folder));
                    ConsoleError; writeFailedNotice])%list)
        end
    end.
Proof.
  intros Hne Hall.
  unfold collectAndWrite, bind at 1, ask at 1.
  fold (files_in now v folder).
  destruct (files_in now v folder) as [|f0 files0] eqn:Hfiles; [congruence|].
  cbn [List.length Nat.eqb].
  unfold bind at 1.
  destruct (read_loop_run (f0 :: files0) "" v)
    as [[_ Hrun]|(before & f & after & Hsplit & Hb & Hf & _)].
  - rewrite Hrun. cbn [append].
    unfold tryCatch, bind, ask, call, emit, mergedNotice, writeFailedNotice.
    destruct (getFileByPath v (resolvedOutputPath settings now)) as [existing|].
    + destruct (modify v existing _); cbn [app]; reflexivity.
    + destruct (create v _ _); cbn [app]; reflexivity.
  - exfalso. rewrite Hsplit in Hall.
    apply Forall_app in Hall. destruct Hall as [_ Hall].
    inversion Hall as [|? ? Hf' _]; subst. congruence.
Qed.

Lemma collectAndWrite_read_failed now v folder before f after :
  files_in now v folder = (before ++ f :: after)%list ->
  Forall (fun g => read v g <> None) before ->
  read v f = None ->
  collectAndWrite minimatch localeCompare settings folder
    (resolvedOutputPath settings now) v
  = (Thrown, v, map Read (before ++ [f])).
Proof.
  intros Hfiles Hb Hf.
  unfold collectAndWrite, bind at 1, ask at 1.
  fold (files_in now v folder). rewrite Hfiles.
  assert (Hlen : (List.length (before ++ f :: after) =? 0) = false).
  { rewrite length_app. simpl. apply Nat.eqb_neq. lia. }
  rewrite Hlen. unfold bind at 1.
  destruct (read_loop_run (before ++ f :: after) "" v)
    as [[Hall _]|(before' & f' & after' & Hsplit & Hb' & Hf' & Hrun)].
  - exfalso. apply Forall_app in Hall. destruct Hall as [_ Hall].
    inversion Hall; subst. congruence.
  - rewrite Hrun.
    assert (before' = before /\ f' = f) as [-> ->]; [|reflexivity].
    clear Hrun Hlen Hfiles. revert before' Hsplit Hb'.
    induction before as [|b before IH]; intros [|b' before'] Hsplit Hb'; simpl in Hsplit.
    + injection Hsplit as -> _. split; reflexivity.
    + injection Hsplit as -> _. inversion Hb'; subst. congruence.
    + injection Hsplit as -> _. inversion Hb; subst. congruence.
    + injection Hsplit as -> Hsplit. inversion Hb; inversion Hb'; subst.
      destruct (IH ltac:(assumption) before' Hsplit ltac:(assumption)) as [-> ->].
      split; reflexivity.
Qed.

(** Every run is of one of the eight kinds. *)
Lemma mergeMarkdownFiles_runs now v :
  MergeRun minimatch localeCompare settings now v (merge now v).
Proof.
  destruct (sourceFolder settings v) as [folder|] eqn:Hsrc.
  2:{ rewrite (mergeMarkdownFiles_source_missing now v Hsrc). constructor. exact Hsrc. }
  destruct (ensureFolderExists (resolvedFolderPath settings) v) as [[[[]|] v1] log1] eqn:Hens.
  2:{ rewrite (mergeMarkdownFiles_folder_failed now v folder v1 log1 Hsrc Hens).
      eapply run_folder_failed; eassumption. }
  rewrite (mergeMarkdownFiles_ensured minimatch localeCompare settings now v folder v1 log1
             Hsrc Hens).
  destruct (files_in now v1 folder) as [|f0 files0] eqn:Hfiles.
  { rewrite (collectAndWrite_nothing minimatch localeCompare settings now v1 folder Hfiles).
    eapply run_nothing; eassumption. }
  destruct (read_loop_run (files_in now v1 folder) "" v1)
    as [[Hall _]|(before & f & after & Hsplit & Hb & Hf & _)].
  - assert (Hne : files_in now v1 folder <> []) by (rewrite Hfiles; discriminate).
    rewrite (collectAndWrite_run now v1 folder Hne Hall).
    destruct (getFileByPath v1 (resolvedOutputPath settings now)) as [existing|] eqn:Hget.
    + destruct (modify v1 existing _) as [v2|] eqn:Hmod.
      * eapply run_modified; eassumption.
      * eapply run_modify_failed; eassumption.
    + destruct (create v1 _ _) as [v2|] eqn:Hcr.
      * eapply run_created; eassumption.
      * eapply run_create_failed; eassumption.
  - rewrite (collectAndWrite_read_failed now v1 folder before f after Hsplit Hb Hf).
    eapply run_read_failed; eassumption.
Qed.

End RunFacts.

Section RunProperties.

Context {host : VaultHost}.
Variable minimatch : string -> string -> bool.
Variable localeCompare : string -> string -> Z.
Variable settings : MergePluginSettings.

#[local] Abbreviation merge := (mergeMarkdownFiles minimatch localeCompare settings).
#[local] Abbreviation files_in now v folder :=
  (collected minimatch localeCompare settings now v folder).

(** X12: when every read answers, the loop over the files returns the
    merged text and leaves the vault as it was, having read each file once,
    in the order of the sequence; the text is, for each file in that order,
    the heading with its base name, a blank line, its content without the
    white space at its ends, and a blank line. *)
Theorem X12_merged_text (files : list TFile) (v : Vault) :
  Forall (fun g => read v g <> None) files ->
  read_loop files "" v = (Returned (mergedContentOf v files), v, map Read files)
  /\ (forall f c rest,
        read v f = Some c ->
        mergedContentOf v (f :: rest)
        = "# " ++ basename f ++ newline ++ newline ++ JS.trim c ++ newline ++ newline
            ++ mergedContentOf v rest).
Proof.
  intros Hall. split.
  - destruct (read_loop_run files "" v) as [[_ Hrun]|(before & f & after & -> & _ & Hf & _)].
    + exact Hrun.
    + exfalso. apply Forall_app in Hall. destruct Hall as [_ Hall].
      inversion Hall; subst. congruence.
  - intros f c rest Hread.
    change (mergedContentOf v (f :: rest))
      with (sectionOf (basename f) (contentAt v f) ++ mergedContentOf v rest).
    unfold contentAt. rewrite Hread. unfold sectionOf.
    rewrite !append_assoc. reflexivity.
Qed.

(** X13: a run that collects files and reads them all writes the merged
    text once, after the reads: through [modify] on the file found at the
    destination path when there is one, through [create] at the destination
    path when there is none; when the write returns the run ends with the
    notice that counts the files, and when the write rejects the run still
    returns, after [console.error] and the notice of the failure, with the
    vault as it was before the write. *)
Theorem X13_write_step (now : Date) (v : Vault) (folder : FolderObj)
    (v1 : Vault) (log1 : list Event) :
  sourceFolder settings v = Some folder ->
  ensureFolderExists (resolvedFolderPath settings) v = (Returned tt, v1, log1) ->
  files_in now v1 folder <> [] ->
  Forall (fun g => read v1 g <> None) (files_in now v1 folder) ->
  merge now v
  = match getFileByPath v1 (resolvedOutputPath settings now) with
    | Some existing =>
        match modify v1 existing (mergedContentOf v1 (files_in now v1 folder)) with
        | Some v2 =>
            (Returned tt, v2,
             (log1 ++ map Read (files_in now v1 folder)
                ++ [Modify existing (mergedContentOf v1 (files_in now v1 folder));
                    mergedNotice settings now (files_in now v1 folder)])%list)
        | None =>
            (Returned tt, v1,
             (log1 ++ map Read (files_in now v1 folder)
                ++ [Modify existing (mergedContentOf v1 (files_in now v1 folder));
                    ConsoleError; writeFailedNotice])%list)
        end
    | None =>
        match create v1 (resolvedOutputPath settings now)
                (mergedContentOf v1 (files_in now v1 folder)) with
        | Some v2 =>
            (Returned tt, v2,
             (log1 ++ map Read (files_in now v1 folder)
                ++ [Create (resolvedOutputPath settings now)
                      (mergedContentOf v1 (files_in now v1 folder));
                    mergedNotice settings now (files_in now v1 folder)])%list)
        | None =>
            (Returned tt, v1,
             (log1 ++ map Read (files_in now v1 folder)
                ++ [Create (resolvedOutputPath settings now)
                      (mergedContentOf v1 (files_in now v1 folder));
                    ConsoleError; writeFailedNotice])%list)
        end
    end.
Proof.
  intros Hsrc Hens Hne Hall.
  rewrite (mergeMarkdownFiles_ensured minimatch localeCompare settings now v folder v1 log1
             Hsrc Hens).
  rewrite (collectAndWrite_run minimatch localeCompare settings now v1 folder Hne Hall).
  destruct (getFileByPath v1 (resolvedOutputPath settings now)) as [existing|].
  - destruct (modify v1 existing _); reflexivity.
  - destruct (create v1 _ _); reflexivity.
Qed.

Lemma filter_none {A} (P : A -> bool) l :
  Forall (fun e => P e = false) l -> filter P l = [].
Proof.
  induction 1 as [|e l He _ IH]; [reflexivity|]. simpl. rewrite He. exact IH.
Qed.

Lemma filter_reads P (files : list TFile) :
  (forall f, P (Read f) = false) -> filter P (map Read files) = [].
Proof.
  intros HP. apply filter_none, Forall_forall. intros e He.
  apply in_map_iff in He. destruct He as (f & <- & _). apply HP.
Qed.

(** What [ensureFolderExists] did holds no notice, read or file write. *)
Lemma filter_folder_requests P path v :
  (forall p, P (CreateFolder p) = false) ->
  filter P (snd (ensureFolderExists path v)) = [].
Proof.
  intros HP. apply filter_none.
  eapply Forall_impl; [|apply (ensureFolderExists_emits path v)].
  intros [] He; simpl in He; try discriminate He. apply HP.
Qed.

(** Splits the filter of a run's events into its parts and empties the
    parts that cannot pass it. *)
Ltac filter_run P Hens :=
  rewrite ?filter_app;
  match type of Hens with
  | ensureFolderExists ?path ?v = (_, _, ?log1) =>
      let H := fresh "Hlog" in
      pose proof (filter_folder_requests P path v (fun _ => eq_refl)) as H;
      rewrite Hens in H; cbn [snd] in H;
      rewrite H; clear H
  end;
  rewrite ?filter_reads by (intros; reflexivity);
  cbn [app filter isFileWrite isNotice isRead].

(** X14: a run writes at most one file, and only at the destination: it
    calls [create] and [modify] at most once in all, [create] only with the
    destination path and only when no file was found there, [modify] only
    on the file found at the destination path. *)
Theorem X14_one_write_at_destination (now : Date) (v : Vault) :
  filter isFileWrite (snd (merge now v)) = []
  \/ (exists v1 log1 data,
        ensureFolderExists (resolvedFolderPath settings) v = (Returned tt, v1, log1)
        /\ getFileByPath v1 (resolvedOutputPath settings now) = None
        /\ filter isFileWrite (snd (merge now v))
           = [Create (resolvedOutputPath settings now) data])
  \/ (exists v1 log1 existing data,
        ensureFolderExists (resolvedFolderPath settings) v = (Returned tt, v1, log1)
        /\ getFileByPath v1 (resolvedOutputPath settings now) = Some existing
        /\ filter isFileWrite (snd (merge now v)) = [Modify existing data]).
Proof.
  destruct (mergeMarkdownFiles_runs minimatch localeCompare settings now v)
    as [Hsrc|folder v1 log1 Hsrc Hens|folder v1 log1 Hsrc Hens Hnil
        |folder v1 log1 before f after Hsrc Hens Hsplit Hb Hf
        |folder v1 log1 existing v2 Hsrc Hens Hne Hall Hget Hw
        |folder v1 log1 existing Hsrc Hens Hne Hall Hget Hw
        |folder v1 log1 v2 Hsrc Hens Hne Hall Hget Hw
        |folder v1 log1 Hsrc Hens Hne Hall Hget Hw]; cbn [snd].
  - left. reflexivity.
  - left. filter_run isFileWrite Hens. reflexivity.
  - left. filter_run isFileWrite Hens. reflexivity.
  - left. filter_run isFileWrite Hens. reflexivity.
  - right. right. exists v1, log1, existing. eexists.
    split; [exact Hens|]. split; [exact Hget|].
    filter_run isFileWrite Hens. reflexivity.
  - right. right. exists v1, log1, existing. eexists.
    split; [exact Hens|]. split; [exact Hget|].
    filter_run isFileWrite Hens. reflexivity.
  - right. left. exists v1, log1. eexists.
    split; [exact Hens|]. split; [exact Hget|].
    filter_run isFileWrite Hens. reflexivity.
  - right. left. exists v1, log1. eexists.
    split; [exact Hens|]. split; [exact Hget|].
    filter_run isFileWrite Hens. reflexivity.
Qed.





(** X17: when the source folder is not found the run asks nothing of the
    vault and shows the notice; when the output folder cannot be made the
    run returns after [console.error] and the notice, having collected
    and read no file and written none. *)
Theorem X17_aborted_runs (now : Date) (v : Vault) :
  (sourceFolder settings v = None ->
   merge now v = (Returned tt, v, [notFoundNotice settings]))
  /\ (forall folder v1 log1,
        sourceFolder settings v = Some folder ->
        ensureFolderExists (resolvedFolderPath settings) v = (Thrown, v1, log1) ->
        merge now v
        = (Returned tt, v1, (log1 ++ [ConsoleError; folderFailedNotice settings])%list)
        /\ filter isRead (snd (merge now v)) = []
        /\ filter isFileWrite (snd (merge now v)) = []).
Proof.
  split; [apply mergeMarkdownFiles_source_missing|].
  intros folder v1 log1 Hsrc Hens.
  rewrite (mergeMarkdownFiles_folder_failed minimatch localeCompare settings
             now v folder v1 log1 Hsrc Hens).
  split; [reflexivity|]. cbn [snd]. unfold folderFailedNotice.
  split; [filter_run isRead Hens|filter_run isFileWrite Hens]; reflexivity.
Qed.

End RunProperties.

Section RootDestination.

Context {host : VaultHost}.

(** X18: with an output folder that resolves to the root of the vault
    (blank, or slashes only) no run ever asks the vault to create a
    folder. *)
Theorem X18_root_destination_creates_no_folder minimatch localeCompare
    (settings : MergePluginSettings) (now : Date) (v : Vault) :
  resolvedFolderPath settings = "" ->
  filter isCreateFolder
    (snd (mergeMarkdownFiles minimatch localeCompare settings now v)) = [].
Proof.
  intros Hroot. apply filter_none.
  assert (H : emits (fun e => negb (isCreateFolder e))
                (mergeMarkdownFiles minimatch localeCompare settings now)).
  { unfold mergeMarkdownFiles.
    apply emits_bind; [apply emits_ask|]. intros [folder|];
      [|apply emits_emit; reflexivity].
    rewrite Hroot. apply emits_bind.
    - apply emits_tryCatch.
      + apply emits_bind; [apply emits_ret|intros _; apply emits_ret].
      + apply emits_bind; [apply emits_emit; reflexivity|intros _].
        apply emits_bind; [apply emits_emit; reflexivity|intros _; apply emits_ret].
    - intros ensured. destruct ensured; [apply collectAndWrite_emits|apply emits_ret]. }
  eapply Forall_impl; [|apply (H v)].
  intros e He. apply negb_true_iff, He.
Qed.

End RootDestination.

Lemma X18_root_destination_creates_no_folder_witness :
  filter isCreateFolder
    (snd (mergeMarkdownFiles (host := memHost) noMatch codeUnitCompare
            (onChangeOutputFolder " / " DEFAULT_SETTINGS) newYear2024 scenarioNotes)) = [].
Proof.
  apply (X18_root_destination_creates_no_folder (host := memHost)).
  reflexivity.
Defined.

(** A vault that takes no change rejects the first folder of the chain. *)
Lemma X7_ensureFolderExists_stops_at_rejection_witness :
  ensureFolderExists (host := lockedHost) "a/b" scenarioC
  = (Thrown, scenarioC, [CreateFolder "a"])
  /\ exists created p,
       [CreateFolder "a"] = map CreateFolder (created ++ [p])
       /\ getFolderByPath (VaultHost := lockedHost) scenarioC p = None
       /\ createFolder (VaultHost := lockedHost) scenarioC p = None.
Proof.
  split; [reflexivity|].
  exact (X7_ensureFolderExists_stops_at_rejection (host := lockedHost)
           "a/b" scenarioC scenarioC [CreateFolder "a"] eq_refl).
Defined.

Lemma scenarioNotes_readable :
  Forall (fun g => read (VaultHost := memHost) scenarioNotes g <> None)
    [mdFile "" "a"; mdFile "" "b"].
Proof. repeat constructor; discriminate. Qed.

Lemma X12_merged_text_witness :
  read_loop (host := memHost) [mdFile "" "a"; mdFile "" "b"] "" scenarioNotes
  = (Returned ("# a" ++ newline ++ newline ++ "world" ++ newline ++ newline
               ++ "# b" ++ newline ++ newline ++ "hello" ++ newline ++ newline),
     scenarioNotes, [Read (mdFile "" "a"); Read (mdFile "" "b")]).
Proof.
  exact (proj1 (X12_merged_text (host := memHost) [mdFile "" "a"; mdFile "" "b"]
                  scenarioNotes scenarioNotes_readable)).
Defined.

(** A second run on the same day overwrites the merged file of the first,
    which is not among the files it reads. *)
Lemma X13_write_step_witness :
  mergeMarkdownFiles (host := memHost) noMatch codeUnitCompare DEFAULT_SETTINGS
    newYear2024 scenarioOverwrite
  = (Returned tt,
     mkMemVault (mv_root scenarioOverwrite) ["merged"]
       [("a.md", "new");
        ("merged/merged-output-2024-01-01.md",
         "# a" ++ newline ++ newline ++ "new" ++ newline ++ newline)],
     [Read (mdFile "" "a");
      Modify (mdFile "merged/" "merged-output-2024-01-01")
        ("# a" ++ newline ++ newline ++ "new" ++ newline ++ newline);
      Notice "Merged 1 files into merged/merged-output-2024-01-01.md"]).
Proof.
  refine (X13_write_step (host := memHost) noMatch codeUnitCompare DEFAULT_SETTINGS
            newYear2024 scenarioOverwrite None scenarioOverwrite [] eq_refl eq_refl _ _).
  - discriminate.
  - repeat constructor; discriminate.
Defined.

(** The output folder [a/b] in a vault that takes no change. *)
Lemma X17_aborted_runs_witness :
  mergeMarkdownFiles (host := lockedHost) subMatch codeUnitCompare recursiveSettings
    newYear2024 scenarioNotes
  = (Returned tt, scenarioNotes,
     [CreateFolder "a"; ConsoleError; Notice "Failed to create output folder: a/b"]).
Proof.
  exact (proj1 (proj2 (X17_aborted_runs (host := lockedHost) subMatch codeUnitCompare
                         recursiveSettings newYear2024 scenarioNotes)
                  None scenarioNotes [CreateFolder "a"] eq_refl eq_refl)).
Defined.

(** A run on a vault whose first note cannot be read rejects at that read,
    before any notice or write. *)
Example mergeMarkdownFiles_unreadable :
  mergeMarkdownFiles (host := memHost) noMatch codeUnitCompare DEFAULT_SETTINGS
    newYear2024 scenarioUnreadable
  = (Thrown, scenarioUnreadable, [Read (mdFile "" "a")]).
Proof. reflexivity. Qed.

